(** * data-juicer operators: average_line_length_filter and
      generate_instruction_mapper

    A shallow embedding of
      - data_juicer/ops/filter/average_line_length_filter.py
      - data_juicer/ops/mapper/generate_instruction_mapper.py
    followed by the properties of these two operators.

    Python values are modelled as follows.
      - [str] is a list of Unicode code points ([pystr]); [len] is [length].
      - [float] is an IEEE-754 binary64 value ([spec_float] of the Standard
        Library, precision 53, [emax] 1024).
      - [int] is [Z].
      - a [dict] with identifier keys is a [gmap string _]; a JSON object
        keeps its members in an association list.
      - a raised exception is the [Err] case of [result]; the state a
        function had mutated before it raised is not kept.
      - the records of a batch are distinct objects: an update of the stats
        or context record of one sample leaves those of the others alone.

    What the operators call outside the repository (the JSON reader, the
    regular expression engine, the similarity score, the file system and
    the language model) is the interface [External]; [Concrete] gives one
    executable instance of it. *)

From Stdlib Require Import ZArith QArith Qpower Floats.SpecFloat Ascii String.
From stdpp Require Import gmap strings list fin_maps pretty.

Local Open Scope Z_scope.
#[local] Set Warnings "-register-all".

(** ** Exceptions and the error monad *)

Inductive exn :=
  | KeyError
  | IndexError
  | TypeError
  | ZeroDivisionError
  | JSONDecodeError
  | OSError
  | ValueError (msg : string)
  | ExternalError (msg : string).

Inductive result (A : Type) :=
  | Ok (a : A)
  | Err (e : exn).
Arguments Ok {A} a.
Arguments Err {A} e.

#[global] Instance result_ret : MRet result := fun A a => Ok a.
#[global] Instance result_bind : MBind result := fun A B f r =>
  match r with
  | Ok a => f a
  | Err e => Err e
  end.

Definition is_Ok {A} (r : result A) : Prop := exists a, r = Ok a.

(** ** Strings *)

Abbreviation pystr := (list N).

(** An ASCII literal as a Python string. *)
Definition str (s : string) : pystr :=
  List.map N_of_ascii (list_ascii_of_string s).

(** [l[i]] on a list: [IndexError] when out of range. *)
Definition list_getitem {A} (l : list A) (i : nat) : result A :=
  match l !! i with
  | Some a => Ok a
  | None => Err IndexError
  end.

(** [d[k]] on a dict: [KeyError] when the key is absent. *)
Definition dict_getitem {A} (d : gmap string A) (k : string) : result A :=
  match d !! k with
  | Some a => Ok a
  | None => Err KeyError
  end.

(** Code points at which [str.splitlines] breaks a line. *)
Definition linebreaks : list N := [10; 11; 12; 13; 28; 29; 30; 133; 8232; 8233]%N.

Definition is_linebreak (c : N) : bool := bool_decide (c ∈ linebreaks).

(** [str.splitlines()]: [line] is the line being accumulated.  A carriage
    return followed by a line feed is one break; text after the last break
    is a line only if it is not empty. *)
Fixpoint splitlines_from (line s : pystr) : list pystr :=
  match s with
  | [] => match line with [] => [] | _ => [line] end
  | c :: s' =>
      if is_linebreak c then
        line :: match s' with
                | c' :: s'' =>
                    if (c =? 13)%N && (c' =? 10)%N
                    then splitlines_from [] s''
                    else splitlines_from [] s'
                | [] => []
                end
      else splitlines_from (line ++ [c]) s'
  end.

Definition splitlines (s : pystr) : list pystr := splitlines_from [] s.

(** Code points that [str.strip()] removes. *)
Definition whitespace : list N :=
  [9; 10; 11; 12; 13; 28; 29; 30; 31; 32; 133; 160; 5760;
   8192; 8193; 8194; 8195; 8196; 8197; 8198; 8199; 8200; 8201; 8202;
   8232; 8233; 8239; 8287; 12288]%N.

Definition is_space (c : N) : bool := bool_decide (c ∈ whitespace).

Fixpoint lstrip (s : pystr) : pystr :=
  match s with
  | c :: s' => if is_space c then lstrip s' else s
  | [] => []
  end.

Definition rstrip (s : pystr) : pystr := rev (lstrip (rev s)).

Definition strip (s : pystr) : pystr := rstrip (lstrip s).

(** [sep.join(parts)] on strings. *)
Fixpoint join (sep : pystr) (parts : list pystr) : pystr :=
  match parts with
  | [] => []
  | [p] => p
  | p :: ps => p ++ sep ++ join sep ps
  end.

(** ** Floats *)

Abbreviation float := spec_float.

Definition prec : Z := 53.
Definition emax : Z := 1024.

(** The literal [0.0]. *)
Definition float_zero : float := S754_zero false.

(** The quotient [a / b] of two ints, [b <> 0]: the exact quotient rounded
    once to the nearest binary64 value.  Operands here are lengths, bounded by
    [sys.maxsize], so the quotient never overflows the float range. *)
Definition true_quotient (a b : Z) : float :=
  match a with
  | Z0 => S754_zero (b <? 0)
  | _ => SFdiv prec emax
           (S754_finite (a <? 0) (Z.to_pos (Z.abs a)) 0)
           (S754_finite (b <? 0) (Z.to_pos (Z.abs b)) 0)
  end.

(** [a / b] on ints. *)
Definition int_truediv (a b : Z) : result float :=
  if decide (b = 0) then Err ZeroDivisionError else Ok (true_quotient a b).

(** Comparison of a float with an int.  Python compares the two exactly,
    without rounding the int to a float; a NaN is unordered. *)
Definition float_cmp_int (x : float) (n : Z) : option comparison :=
  match x with
  | S754_nan => None
  | S754_infinity s => Some (if s then Lt else Gt)
  | S754_zero _ => Some (0 ?= n)
  | S754_finite s m e =>
      let sm := cond_Zopp s (Zpos m) in
      Some (if 0 <=? e then sm * 2 ^ e ?= n else sm ?= n * 2 ^ (- e))
  end.

(** [n <= x] for an int [n] and a float [x]. *)
Definition int_le_float (n : Z) (x : float) : bool :=
  match float_cmp_int x n with
  | Some (Gt | Eq) => true
  | _ => false
  end.

(** [x <= n] for a float [x] and an int [n]. *)
Definition float_le_int (x : float) (n : Z) : bool :=
  match float_cmp_int x n with
  | Some (Lt | Eq) => true
  | _ => false
  end.

(** The rational value of a finite float [(-1)^s * m * 2^e]. *)
Definition finite_value (s : bool) (m : positive) (e : Z) : Q :=
  (inject_Z (cond_Zopp s (Zpos m)) * 2 ^ e)%Q.

(** The mathematical order between an int and a float, stated on the
    float's value in the extended rationals. *)
Definition Zle_float (n : Z) (x : float) : Prop :=
  match x with
  | S754_nan => False
  | S754_infinity s => s = false
  | S754_zero _ => n <= 0
  | S754_finite s m e => (inject_Z n <= finite_value s m e)%Q
  end.

Definition float_leZ (x : float) (n : Z) : Prop :=
  match x with
  | S754_nan => False
  | S754_infinity s => s = true
  | S754_zero _ => 0 <= n
  | S754_finite s m e => (finite_value s m e <= inject_Z n)%Q
  end.

(** ** The average-line-length filter *)

Module AverageLineLengthFilter.

(** Modelled from the spec: [StatsKeys], [Fields] and [InterVars] are
    declared in data_juicer.utils.constant, which is not among the sources;
    the spec names the metric avg_line_length and the shared intermediate
    value the line split. *)
Definition avg_line_length : string := "avg_line_length".
Definition lines_key : string := "lines".

(** The operator's configuration ([__init__]). *)
Record t := {
  min_len : Z;
  max_len : Z;
}.

Definition sys_maxsize : Z := 2 ^ 63 - 1.

Definition defaults : t := {| min_len := 10; max_len := sys_maxsize |}.

(** A batch: the text column, the stats column and, when the pipeline
    shares intermediate values, the context column. *)
Record Samples := {
  text : list pystr;
  stats : list (gmap string float);
  context : option (list (gmap string (list pystr)));
}.

Definition set_stats (samples : Samples) (st : list (gmap string float)) : Samples :=
  {| text := text samples; stats := st; context := context samples |}.

Definition set_context (samples : Samples)
    (cs : list (gmap string (list pystr))) : Samples :=
  {| text := text samples; stats := stats samples; context := Some cs |}.

(** [samples[Fields.context][i]] *)
Definition context_at (samples : Samples) (i : nat)
    : result (gmap string (list pystr)) :=
  match context samples with
  | None => Err KeyError
  | Some cs => list_getitem cs i
  end.

(** Lines 52-57: the line split of sample [i], taken from the context when it
    is there, computed (and cached when [ctx] is on) otherwise. *)
Definition lines_at (ctx : bool) (samples : Samples) (i : nat)
    : result (list pystr * Samples) :=
  cached ← (if ctx then c ← context_at samples i; Ok (c !! lines_key)
            else Ok None);
  match cached with
  | Some lines => Ok (lines, samples)
  | None =>
      t ← list_getitem (text samples) i;
      let lines := splitlines t in
      if ctx then
        match context samples with
        | None => Err KeyError
        | Some cs =>
            c ← list_getitem cs i;
            Ok (lines, set_context samples (<[i := <[lines_key := lines]> c]> cs))
        end
      else Ok (lines, samples)
  end.

(** Lines 58-59: the metric of sample [i] given its lines. *)
Definition metric_at (samples : Samples) (i : nat) (lines : list pystr)
    : result float :=
  if decide (length lines ≠ 0%nat) then
    t ← list_getitem (text samples) i;
    int_truediv (Z.of_nat (length t)) (Z.of_nat (length lines))
  else Ok float_zero.

(** One iteration of the loop of [compute_stats]. *)
Definition compute_stats_step (ctx : bool) (samples : Samples) (i : nat)
    : result Samples :=
  stat ← list_getitem (stats samples) i;
  if decide (is_Some (stat !! avg_line_length)) then Ok samples
  else
    '(lines, samples) ← lines_at ctx samples i;
    v ← metric_at samples i lines;
    Ok (set_stats samples
          (<[i := <[avg_line_length := v]> stat]> (stats samples))).

Fixpoint compute_stats_loop (ctx : bool) (samples : Samples) (idx : list nat)
    : result Samples :=
  match idx with
  | [] => Ok samples
  | i :: idx' =>
      samples' ← compute_stats_step ctx samples i;
      compute_stats_loop ctx samples' idx'
  end.

Definition compute_stats (self : t) (samples : Samples) (ctx : bool)
    : result Samples :=
  compute_stats_loop ctx samples (seq 0 (length (stats samples))).

(** [samples[Fields.stats]] as [process] receives it: a list of records in
    batched mode, one record in single-sample mode. *)
Inductive StatsField :=
  | StatsList (l : list (gmap string float))
  | StatsRecord (stat : gmap string float).

Inductive Decision :=
  | BoolList (l : list bool)
  | Bool (b : bool).

(** [self.min_len <= stat[StatsKeys.avg_line_length] <= self.max_len] *)
Definition in_range (self : t) (stat : gmap string float) : result bool :=
  v ← dict_getitem stat avg_line_length;
  Ok (int_le_float (min_len self) v && float_le_int v (max_len self)).

Fixpoint process_loop (self : t) (l : list (gmap string float))
    (bool_results : list bool) : result (list bool) :=
  match l with
  | [] => Ok bool_results
  | stat :: l' =>
      b ← in_range self stat;
      if (b : bool) then process_loop self l' (bool_results ++ [true])
      else process_loop self l' (bool_results ++ [false])
  end.

Definition process (self : t) (samples_stats : StatsField) : result Decision :=
  match samples_stats with
  | StatsList l => bs ← process_loop self l []; Ok (BoolList bs)
  | StatsRecord stat =>
      b ← in_range self stat;
      if (b : bool) then Ok (Bool true) else Ok (Bool false)
  end.

(** *** Notions used in the statements *)

(** The lines cached for sample [i], if the context is consulted and has
    them. *)
Definition cached_lines (ctx : bool) (samples : Samples) (i : nat)
    : option (list pystr) :=
  if ctx then cs ← context samples; c ← cs !! i; c !! lines_key else None.

(** The lines [compute_stats] uses for sample [i] with text [T]. *)
Definition lines_for (ctx : bool) (samples : Samples) (i : nat) (T : pystr)
    : list pystr :=
  default (splitlines T) (cached_lines ctx samples i).

(** The metric of a text with the given lines. *)
Definition average (T : pystr) (lines : list pystr) : float :=
  if decide (length lines ≠ 0%nat)
  then true_quotient (Z.of_nat (length T)) (Z.of_nat (length lines))
  else float_zero.

(** A batch whose columns are long enough for its stats column. *)
Definition aligned (ctx : bool) (samples : Samples) : Prop :=
  (length (stats samples) <= length (text samples))%nat /\
  (ctx = true ->
   exists cs, context samples = Some cs /\
              (length (stats samples) <= length cs)%nat).

(** The decision on a metric value, stated on its mathematical value. *)
Definition kept (self : t) (v : float) : Prop :=
  Zle_float (min_len self) v /\ float_leZ v (max_len self).

End AverageLineLengthFilter.

(** ** JSON and the values of seed records *)

(** The values [json.loads] returns and [json.dumps] accepts: [None], bools,
    ints, floats, strings, lists and dicts with string keys. *)
Inductive json :=
  | JNull
  | JBool (b : bool)
  | JInt (n : Z)
  | JFloat (x : float)
  | JStr (s : pystr)
  | JArr (l : list json)
  | JObj (members : list (pystr * json)).

(** Lookup in the members of a dict. *)
Fixpoint assoc (k : pystr) (members : list (pystr * json)) : option json :=
  match members with
  | [] => None
  | (k', v) :: rest => if decide (k' = k) then Some v else assoc k rest
  end.

(** [v[k]] for a string key [k]: only a dict can be indexed by a string. *)
Definition getitem_str (v : json) (k : pystr) : result json :=
  match v with
  | JObj members =>
      match assoc k members with
      | Some x => Ok x
      | None => Err KeyError
      end
  | _ => Err TypeError
  end.

(** The elements a [for] loop over [v] visits: the items of a list, the keys
    of a dict, the characters of a string. *)
Definition iterate (v : json) : result (list json) :=
  match v with
  | JArr l => Ok l
  | JObj members => Ok (List.map (fun kv => JStr (fst kv)) members)
  | JStr s => Ok (List.map (fun c => JStr [c]) s)
  | _ => Err TypeError
  end.

(** [v == lit] for a string literal [lit]. *)
Definition eq_str (v : json) (lit : pystr) : bool :=
  match v with
  | JStr s => bool_decide (s = lit)
  | _ => false
  end.

(** [sep.join(parts)] on arbitrary values: every part must be a string. *)
Fixpoint as_strs (parts : list json) : result (list pystr) :=
  match parts with
  | [] => Ok []
  | JStr s :: rest => ss ← as_strs rest; Ok (s :: ss)
  | _ :: _ => Err TypeError
  end.

Definition join_values (sep : pystr) (parts : list json) : result pystr :=
  ss ← as_strs parts; Ok (join sep ss).

Definition hex_digit (d : N) : N :=
  (if d <? 10 then 48 + d else 87 + d)%N.

(** [format(n, '04x')] preceded by a backslash and [u]. *)
Definition u_escape (n : N) : pystr :=
  [92; 117; hex_digit (n / 4096 mod 16); hex_digit (n / 256 mod 16);
   hex_digit (n / 16 mod 16); hex_digit (n mod 16)]%N.

(** The escape of one character in a JSON string literal. *)
Definition escape_char (ensure_ascii : bool) (c : N) : pystr :=
  (if c =? 92 then [92; 92]
   else if c =? 34 then [92; 34]
   else if c =? 8 then [92; 98]
   else if c =? 12 then [92; 102]
   else if c =? 10 then [92; 110]
   else if c =? 13 then [92; 114]
   else if c =? 9 then [92; 116]
   else if c <? 32 then u_escape c
   else if negb ensure_ascii || (c <? 127) then [c]
   else if c <? 65536 then u_escape c
   else u_escape (N.lor 55296 (N.land (N.shiftr (c - 65536) 10) 1023))
        ++ u_escape (N.lor 56320 (N.land (c - 65536) 1023)))%N.

Definition encode_basestring (ensure_ascii : bool) (s : pystr) : pystr :=
  [34%N] ++ concat (List.map (escape_char ensure_ascii) s) ++ [34%N].

(** ** The instruction-generation mapper *)

Module GenerateInstructionMapper.

(** The operator after construction.  The prompt templates and the model
    handle are used only by the inference step, which is external. *)
Record t := {
  text_key : string;
  instruct_num : Z;
  similarity_threshold : float;
  similarity_type : string;
  qa_extraction_pattern : pystr;
  model_key : pystr;
  seed_qa_samples : list (list (json * json));
  reference_samples : list pystr;
}.

(** The arguments of [__init__]. *)
Record InitArgs := {
  arg_text_key : string;
  arg_hf_model : pystr;
  arg_seed_file : option pystr;
  arg_instruct_num : Z;
  arg_similarity_threshold : float;
  arg_qa_extraction_pattern : option pystr;
}.

(** A match as [re.findall] returns it: the matched or captured string for a
    pattern with at most one group, the tuple of the captured strings for a
    pattern with several groups. *)
Inductive re_match :=
  | MatchStr (s : pystr)
  | MatchGroups (groups : list pystr).

(** What the operator calls outside this repository. *)
Class External := {
  (** [json.loads] *)
  json_loads : pystr -> result json;
  (** [float.__repr__], as [json.dumps] uses it *)
  float_repr : float -> pystr;
  (** [re.findall(pattern, s, re.DOTALL)]; a pattern that does not compile
      raises *)
  re_findall : pystr -> pystr -> result (list re_match);
  (** [Rouge().get_scores(hyp, ref)[0]['rouge-l']['f']] *)
  rouge_l_f : pystr -> pystr -> result float;
  (** [open(path)] and the decoded text of the file, line ends translated
      to line feeds *)
  open_read : pystr -> result pystr;
  (** [prepare_model] with the checks that precede it *)
  prepare_model : InitArgs -> result pystr;
  (** lines 248-264 of [process]: the random draw, the prompt and the call
      of the model, up to the decoded response *)
  infer : t -> result pystr;
}.

Section with_external.
Context `{External}.

(** [json.dumps(v, ensure_ascii=...)] with the default separators. *)
Fixpoint json_dumps (ensure_ascii : bool) (v : json) : pystr :=
  match v with
  | JNull => str "null"
  | JBool true => str "true"
  | JBool false => str "false"
  | JInt n => str (pretty n)
  | JFloat x => float_repr x
  | JStr s => encode_basestring ensure_ascii s
  | JArr l =>
      str "[" ++ join (str ", ") (List.map (json_dumps ensure_ascii) l) ++ str "]"
  | JObj members =>
      str "{"
      ++ join (str ", ")
           (List.map (fun kv => encode_basestring ensure_ascii (fst kv)
                                ++ str ": " ++ json_dumps ensure_ascii (snd kv))
              members)
      ++ str "}"
  end.

(** [QA_EXTRACTION_PATTERN] *)
Definition QA_EXTRACTION_PATTERN : pystr :=
  [12304; 38382; 39064; 12305]%N ++ str "\s*(.*?)\s*"
  ++ [12304; 22238; 31572; 12305]%N ++ str "\s*(.*?)\s*(?="
  ++ [12304; 38382; 39064; 12305]%N ++ str "|$)".

(** The loop of [parse_chatml_str] over the messages of a record. *)
Fixpoint parse_messages (messages : list json)
    (user_input assistant_output : json) (qa_pairs : list (json * json))
    : result (list (json * json)) :=
  match messages with
  | [] => Ok qa_pairs
  | message :: rest =>
      role ← getitem_str message (str "role");
      content ← getitem_str message (str "content");
      if eq_str role (str "user") then
        parse_messages rest content assistant_output qa_pairs
      else if eq_str role (str "assistant") then
        parse_messages rest user_input content
          (qa_pairs ++ [(user_input, content)])
      else parse_messages rest user_input assistant_output qa_pairs
  end.

Definition parse_chatml_str (input_str : pystr) : result (list (json * json)) :=
  data ← json_loads input_str;
  messages ← getitem_str data (str "messages");
  ms ← iterate messages;
  parse_messages ms JNull JNull [].

(** [f.readlines()]: every line keeps its line feed. *)
Fixpoint readlines_from (line s : pystr) : list pystr :=
  match s with
  | [] => match line with [] => [] | _ => [line] end
  | c :: s' =>
      if (c =? 10)%N then (line ++ [c]) :: readlines_from [] s'
      else readlines_from (line ++ [c]) s'
  end.

Definition readlines (s : pystr) : list pystr := readlines_from [] s.

(** The loop of [load_seed_qa_samples] over the lines of the seed file. *)
Fixpoint load_lines (lines : list pystr) (qa_samples : list (list (json * json)))
    : result (list (list (json * json))) :=
  match lines with
  | [] => Ok qa_samples
  | line :: rest =>
      let line := strip line in
      qa_pairs ← parse_chatml_str line;
      if decide (0 < length qa_pairs)%nat then load_lines rest (qa_samples ++ [qa_pairs])
      else load_lines rest qa_samples
  end.

Definition load_seed_qa_samples (seed_file : pystr)
    : result (list (list (json * json))) :=
  content ← open_read seed_file;
  load_lines (readlines content) [].

(** One entry of [reference_samples]. *)
Definition reference_sample (qa_pairs : list (json * json)) : result pystr :=
  parts ← mapM (fun qa_pair => join_values [10%N] [fst qa_pair; snd qa_pair])
               qa_pairs;
  Ok (join [10%N] parts ++ [10%N]).

(** [__init__] *)
Definition init (args : InitArgs) : result t :=
  match arg_seed_file args with
  | None | Some [] =>
      Err (ValueError "Please provide `seed_file` parameter, a file in chatml format.")
  | Some seed_file =>
      let pattern :=
        match arg_qa_extraction_pattern args with
        | None => QA_EXTRACTION_PATTERN
        | Some p => p
        end in
      key ← prepare_model args;
      samples ← load_seed_qa_samples seed_file;
      if decide (length samples = 0%nat) then
        Err (ValueError "No QA data was parsed from the seed file!")
      else
        refs ← mapM reference_sample samples;
        Ok {| text_key := arg_text_key args;
              instruct_num := arg_instruct_num args;
              similarity_threshold := arg_similarity_threshold args;
              similarity_type := "rouge_l";
              qa_extraction_pattern := pattern;
              model_key := key;
              seed_qa_samples := samples;
              reference_samples := refs |}
  end.

(** [question, answer = match]: a tuple of two strings unpacks, and so does
    a string of two characters; everything else raises [ValueError]. *)
Definition unpack_pair (m : re_match) : result (pystr * pystr) :=
  match m with
  | MatchGroups [question; answer] => Ok (question, answer)
  | MatchStr [c1; c2] => Ok ([c1], [c2])
  | MatchGroups [] | MatchStr [] =>
      Err (ValueError "not enough values to unpack (expected 2, got 0)")
  | MatchGroups [_] | MatchStr [_] =>
      Err (ValueError "not enough values to unpack (expected 2, got 1)")
  | MatchGroups (_ :: _ :: _ :: _) | MatchStr (_ :: _ :: _ :: _) =>
      Err (ValueError "too many values to unpack (expected 2)")
  end.

(** The loop of [parse_response] over the matches. *)
Fixpoint parse_matches (matches : list re_match)
    (out_qa_pairs : list (pystr * pystr)) (response_str : pystr)
    : result (list (pystr * pystr) * pystr) :=
  match matches with
  | [] => Ok (out_qa_pairs, response_str)
  | m :: rest =>
      '(question, answer) ← unpack_pair m;
      let question := strip question in
      let answer := strip answer in
      parse_matches rest (out_qa_pairs ++ [(question, answer)])
        (response_str ++ question ++ [10%N] ++ answer ++ [10%N])
  end.

Definition parse_response (self : t) (response_str : pystr)
    : result (list (pystr * pystr) * pystr) :=
  let pattern := qa_extraction_pattern self in
  matches ← re_findall pattern response_str;
  parse_matches matches [] [].

(** The loop of [max_rouge_l_score]. *)
Fixpoint max_score_loop (reference : pystr) (candidates : list pystr)
    (max_score : float) : result float :=
  match candidates with
  | [] => Ok max_score
  | candidate :: rest =>
      rouge_l_score ← rouge_l_f candidate reference;
      if SFltb max_score rouge_l_score
      then max_score_loop reference rest rouge_l_score
      else max_score_loop reference rest max_score
  end.

Definition max_rouge_l_score (reference : pystr) (candidates : list pystr)
    : result float :=
  max_score_loop reference candidates float_zero.

Definition message (role : string) (content : pystr) : json :=
  JObj [(str "role", JStr (str role)); (str "content", JStr content)].

(** The loop of lines 279-281. *)
Fixpoint append_messages (out_qa_pairs : list (pystr * pystr))
    (message_list : list json) : list json :=
  match out_qa_pairs with
  | [] => message_list
  | (question, answer) :: rest =>
      append_messages rest
        (message_list ++ [message "user" question]
                      ++ [message "assistant" answer])
  end.

(** The value passed to [json.dumps]. *)
Definition container (message_list : list json) : json :=
  JObj [(str "messages", JArr message_list)].

Definition process (self : t)
    : result (gmap string pystr) :=
  response_str ← infer self;
  let message_list := [] in
  '(out_qa_pairs, response_str) ← parse_response self response_str;
  match response_str with
  | [] => Ok {[ text_key self := json_dumps true (container message_list) ]}
  | _ =>
      sim_score ← (if decide (similarity_type self = "rouge_l")
                   then max_rouge_l_score response_str (reference_samples self)
                   else Err (ValueError "Not support similarity type"));
      let message_list :=
        if SFleb sim_score (similarity_threshold self)
        then append_messages out_qa_pairs message_list
        else message_list in
      Ok {[ text_key self := json_dumps false (container message_list) ]}
  end.

(** *** Notions used in the statements *)

(** [m] is a message with the given role and content. *)
Definition is_message (role : string) (content m : json) : Prop :=
  exists r, getitem_str m (str "role") = Ok r /\
            eq_str r (str role) = true /\
            getitem_str m (str "content") = Ok content.

(** The role test and the content of a message, for messages that have
    both. *)
Definition has_role (role : string) (m : json) : bool :=
  match getitem_str m (str "role") with
  | Ok r => eq_str r (str role)
  | Err _ => false
  end.

Definition content_of (m : json) : json :=
  match getitem_str m (str "content") with
  | Ok c => c
  | Err _ => JNull
  end.

(** The content of the last user message among [before]; [None] when there
    is none. *)
Definition last_user (before : list json) : json :=
  match last (List.filter (has_role "user") before) with
  | Some m => content_of m
  | None => JNull
  end.

(** A message that has a role and a content. *)
Definition well_formed (m : json) : Prop :=
  is_Ok (getitem_str m (str "role")) /\ is_Ok (getitem_str m (str "content")).

(** Every assistant message of [rest] with the messages that precede it. *)
Fixpoint assistant_turns (before rest : list json) : list (list json * json) :=
  match rest with
  | [] => []
  | m :: rest' =>
      (if has_role "assistant" m then [(before, m)] else [])
      ++ assistant_turns (before ++ [m]) rest'
  end.

(** A message sequence made of user/assistant pairs. *)
Inductive alternates : list json -> list (json * json) -> Prop :=
  | alternates_nil : alternates [] []
  | alternates_cons mu ma q a ms pairs :
      is_message "user" q mu -> is_message "assistant" a ma ->
      alternates ms pairs ->
      alternates (mu :: ma :: ms) ((q, a) :: pairs).

(** A match with both groups stripped. *)
Definition strip_pair (qa : pystr * pystr) : pystr * pystr :=
  (strip (fst qa), strip (snd qa)).

(** The pairs as a message sequence: for each pair, in order, a user
    message with the question and an assistant message with the answer. *)
Definition messages_of_pairs (pairs : list (pystr * pystr)) : list json :=
  flat_map (fun qa => [message "user" (fst qa); message "assistant" (snd qa)])
           pairs.

(** The sample [process] returns for a message list. *)
Definition emitted (self : t) (message_list : list json) : gmap string pystr :=
  {[ text_key self := json_dumps false (container message_list) ]}.

(** The text of a container with an empty messages array. *)
Definition empty_container_text : pystr :=
  str "{" ++ [34%N] ++ str "messages" ++ [34%N] ++ str ": []}".

(** The messages of a record, as the seed parser reads them. *)
Definition messages_of (input_str : pystr) : result (list json) :=
  data ← json_loads input_str;
  messages ← getitem_str data (str "messages");
  iterate messages.

(** The statement that every emitted pair has a user message and, after it,
    an assistant message, in the record. *)
Definition pairs_follow_user_and_assistant : Prop :=
  forall input_str messages qa_pairs,
    messages_of input_str = Ok messages ->
    parse_chatml_str input_str = Ok qa_pairs ->
    forall q a, (q, a) ∈ qa_pairs ->
      exists (i j : nat) mu ma,
        (i < j)%nat /\
        messages !! i = Some mu /\ is_message "user" q mu /\
        messages !! j = Some ma /\ is_message "assistant" a ma.

End with_external.

End GenerateInstructionMapper.

(** ** An executable environment

    Small implementations of the external functions, on which the operator
    can be run: a JSON reader for the subset of JSON seed files use, the
    matches of the default extraction pattern, and a similarity that tells
    equal texts from different ones. *)

Module Concrete.

Import GenerateInstructionMapper.

Definition json_space (c : N) : bool := bool_decide (c ∈ [32; 9; 10; 13]%N).

Fixpoint skip_ws (s : pystr) : pystr :=
  match s with
  | c :: s' => if json_space c then skip_ws s' else s
  | [] => []
  end.

(** The body of a string literal, after its opening quote. *)
Fixpoint read_string (s acc : pystr) : option (pystr * pystr) :=
  match s with
  | [] => None
  | c :: rest =>
      if (c =? 34)%N then Some (acc, rest)
      else if (c =? 92)%N then
        match rest with
        | e :: rest' =>
            let unescaped :=
              (if e =? 110 then Some 10 else if e =? 116 then Some 9
               else if e =? 114 then Some 13 else if e =? 98 then Some 8
               else if e =? 102 then Some 12
               else if (e =? 34) || (e =? 92) || (e =? 47) then Some e
               else None)%N in
            match unescaped with
            | Some u => read_string rest' (acc ++ [u])
            | None => None
            end
        | [] => None
        end
      else if (c <? 32)%N then None
      else read_string rest (acc ++ [c])
  end.

Definition is_digit (c : N) : bool := ((48 <=? c) && (c <=? 57))%N.

Fixpoint read_digits (s : pystr) (acc : Z) : Z * pystr :=
  match s with
  | c :: s' =>
      if is_digit c then read_digits s' (10 * acc + Z.of_N (c - 48)) else (acc, s)
  | [] => (acc, [])
  end.

Fixpoint strip_prefix (p s : pystr) : option pystr :=
  match p, s with
  | [], _ => Some s
  | a :: p', b :: s' => if (a =? b)%N then strip_prefix p' s' else None
  | _ :: _, [] => None
  end.

Fixpoint read_value (fuel : nat) (s : pystr) : option (json * pystr) :=
  match fuel with
  | O => None
  | S fuel =>
      match skip_ws s with
      | [] => None
      | c :: rest =>
          if (c =? 34)%N then
            '(x, rest') ← read_string rest []; Some (JStr x, rest')
          else if (c =? 91)%N then
            match skip_ws rest with
            | c' :: rest' =>
                if (c' =? 93)%N then Some (JArr [], rest')
                else '(l, rest'') ← read_items fuel rest []; Some (JArr l, rest'')
            | [] => None
            end
          else if (c =? 123)%N then
            match skip_ws rest with
            | c' :: rest' =>
                if (c' =? 125)%N then Some (JObj [], rest')
                else '(l, rest'') ← read_members fuel rest []; Some (JObj l, rest'')
            | [] => None
            end
          else if (c =? 45)%N then
            match rest with
            | d :: _ =>
                if is_digit d
                then let '(n, rest') := read_digits rest 0 in Some (JInt (- n), rest')
                else None
            | [] => None
            end
          else if is_digit c then
            let '(n, rest') := read_digits (c :: rest) 0 in Some (JInt n, rest')
          else
            match strip_prefix (str "null") (c :: rest) with
            | Some rest' => Some (JNull, rest')
            | None =>
                match strip_prefix (str "true") (c :: rest) with
                | Some rest' => Some (JBool true, rest')
                | None =>
                    match strip_prefix (str "false") (c :: rest) with
                    | Some rest' => Some (JBool false, rest')
                    | None => None
                    end
                end
            end
      end
  end
with read_items (fuel : nat) (s : pystr) (acc : list json)
    : option (list json * pystr) :=
  match fuel with
  | O => None
  | S fuel =>
      '(v, rest) ← read_value fuel s;
      match skip_ws rest with
      | c :: rest' =>
          if (c =? 44)%N then read_items fuel rest' (acc ++ [v])
          else if (c =? 93)%N then Some (acc ++ [v], rest')
          else None
      | [] => None
      end
  end
with read_members (fuel : nat) (s : pystr) (acc : list (pystr * json))
    : option (list (pystr * json) * pystr) :=
  match fuel with
  | O => None
  | S fuel =>
      match skip_ws s with
      | q :: rest =>
          if (q =? 34)%N then
            '(k, rest) ← read_string rest [];
            match skip_ws rest with
            | c :: rest =>
                if (c =? 58)%N then
                  '(v, rest) ← read_value fuel rest;
                  let acc := List.filter (fun kv => negb (bool_decide (fst kv = k))) acc
                             ++ [(k, v)] in
                  match skip_ws rest with
                  | c :: rest' =>
                      if (c =? 44)%N then read_members fuel rest' acc
                      else if (c =? 125)%N then Some (acc, rest')
                      else None
                  | [] => None
                  end
                else None
            | [] => None
            end
          else None
      | [] => None
      end
  end.

Definition loads (s : pystr) : result json :=
  match read_value (2 * length s + 2) s with
  | Some (v, rest) =>
      match skip_ws rest with
      | [] => Ok v
      | _ => Err JSONDecodeError
      end
  | None => Err JSONDecodeError
  end.

(** The first occurrence of [marker] in [s]: the text before it and the text
    after it. *)
Fixpoint split_at (marker s before : pystr) : option (pystr * pystr) :=
  match strip_prefix marker s with
  | Some rest => Some (before, rest)
  | None =>
      match s with
      | c :: s' => split_at marker s' (before ++ [c])
      | [] => None
      end
  end.

Definition question_mark : pystr := [12304; 38382; 39064; 12305]%N.
Definition answer_mark : pystr := [12304; 22238; 31572; 12305]%N.

(** The matches of the default extraction pattern: each question marker, the
    text up to the next answer marker, and the text up to the next question
    marker or the end. *)
Fixpoint findall_from (fuel : nat) (s : pystr) : list (pystr * pystr) :=
  match fuel with
  | O => []
  | S fuel =>
      match split_at question_mark s [] with
      | None => []
      | Some (_, s1) =>
          match split_at answer_mark s1 [] with
          | None => []
          | Some (q, s2) =>
              match split_at question_mark s2 [] with
              | None => [(strip q, strip s2)]
              | Some (a, _) =>
                  (strip q, strip a)
                  :: findall_from fuel (drop (length a) s2)
              end
          end
      end
  end.

Definition findall (pattern s : pystr) : list (pystr * pystr) :=
  findall_from (length s) s.

Definition float_one : float := S754_finite false 4503599627370496 (-52).

(** A similarity with the two extreme values only. *)
Definition similarity (hyp ref : pystr) : result float :=
  Ok (if decide (hyp = ref) then float_one else float_zero).

(** A file system with one seed file, a model that answers every prompt with
    [response].  No float is ever serialized by the mapper, so [float_repr]
    is a constant. *)
Definition env (seed_text response : pystr) : External := {|
  json_loads := loads;
  float_repr := fun _ => str "0.0";
  re_findall := fun pattern s =>
    Ok (List.map (fun qa => MatchGroups [fst qa; snd qa]) (findall pattern s));
  rouge_l_f := similarity;
  open_read := fun path =>
    if decide (path = str "seed.jsonl") then Ok seed_text else Err OSError;
  prepare_model := fun args => Ok (arg_hf_model args);
  infer := fun _ => Ok response;
|}.

Definition dq : pystr := [34%N].

(** One seed record with the given messages, as a line of text. *)
Definition chatml_message (role content : string) : pystr :=
  str "{" ++ dq ++ str "role" ++ dq ++ str ": " ++ dq ++ str role ++ dq
  ++ str ", " ++ dq ++ str "content" ++ dq ++ str ": " ++ dq ++ str content
  ++ dq ++ str "}".

Definition chatml_line (messages : list pystr) : pystr :=
  str "{" ++ dq ++ str "messages" ++ dq ++ str ": ["
  ++ join (str ", ") messages ++ str "]}".

Definition args : InitArgs := {|
  arg_text_key := "text";
  arg_hf_model := str "Qwen/Qwen-7B-Chat";
  arg_seed_file := Some (str "seed.jsonl");
  arg_instruct_num := 1;
  arg_similarity_threshold := S754_finite false 6305039478318694 (-53);
  arg_qa_extraction_pattern := None;
|}.

(** A record that starts with an assistant message. *)
Definition assistant_first : pystr :=
  chatml_line [chatml_message "assistant" "4"].

End Concrete.

(** ** The prompt builder *)

Module BuildPrompt.



(** [str.format] with its positional and keyword arguments, which is
    outside the repository. *)
Class Formatting := {
  str_format : pystr -> list json -> list (string * json) -> result pystr;
}.


Section with_formatting.
Context `{Formatting}.



End with_formatting.

End BuildPrompt.

(** ** Notions used in the further properties *)

(** A pair of two strings. *)
Definition str_pair (qa : pystr * pystr) : json * json :=
  (JStr (fst qa), JStr (snd qa)).

Definition both_str (qa : json * json) : bool :=
  match qa with
  | (JStr _, JStr _) => true
  | _ => false
  end.

(** The text of some pairs: each question and each answer followed by a
    line feed. *)
Definition pairs_text (pairs : list (pystr * pystr)) : pystr :=
  concat (List.map (fun qa => fst qa ++ [10%N] ++ snd qa ++ [10%N]) pairs).

(** The order of [SFcompare] on the floats that are not NaN, as a
    lexicographic order on integer triples. *)
Definition float_key (x : float) : Z * Z * Z :=
  match x with
  | S754_nan => (0, 0, 0)
  | S754_zero _ => (0, 0, 0)
  | S754_infinity true => (-2, 0, 0)
  | S754_infinity false => (2, 0, 0)
  | S754_finite false m e => (1, e, Z.pos m)
  | S754_finite true m e => (-1, - e, Z.neg m)
  end.

Definition key_lt (a b : Z * Z * Z) : Prop :=
  a.1.1 < b.1.1 \/
  (a.1.1 = b.1.1 /\ (a.1.2 < b.1.2 \/ (a.1.2 = b.1.2 /\ a.2 < b.2))).

Definition key_le (a b : Z * Z * Z) : Prop :=
  a.1.1 < b.1.1 \/
  (a.1.1 = b.1.1 /\ (a.1.2 < b.1.2 \/ (a.1.2 = b.1.2 /\ a.2 <= b.2))).

Definition is_nan (x : float) : bool :=
  match x with
  | S754_nan => true
  | _ => false
  end.

(** [m] is the maximum of the scores: it is one of them, and no score that
    is a number exceeds it. *)
Definition is_maximum (m : float) (scores : list float) : Prop :=
  m ∈ scores /\
  Forall (fun s => is_nan s = true \/ SFleb s m = true) scores.

(** The message sequence of some pairs, as the output format describes it:
    for each pair, in order, an object with the role user and the question
    as content, then an object with the role assistant and the answer as
    content. *)
Definition expected_messages (pairs : list (pystr * pystr)) : list json :=
  flat_map
    (fun qa =>
       [JObj [(str "role", JStr (str "user")); (str "content", JStr (fst qa))];
        JObj [(str "role", JStr (str "assistant")); (str "content", JStr (snd qa))]])
    pairs.

(** The output sample: under the text key, the JSON text of an object whose
    messages member is the given array. *)
Definition expected_sample `{GenerateInstructionMapper.External}
    (key : string) (messages : list json) : gmap string pystr :=
  {[ key := GenerateInstructionMapper.json_dumps false
              (JObj [(str "messages", JArr messages)]) ]}.

(** A message that is a JSON object. *)
Definition is_object (m : json) : Prop := exists members, m = JObj members.

(** An object that lacks the role or the content. *)
Definition lacks_field (m : json) : Prop :=
  exists members, m = JObj members /\
    (assoc (str "role") members = None \/ assoc (str "content") members = None).

(** ** Sample inputs *)

Module Examples.

Import AverageLineLengthFilter GenerateInstructionMapper.

(** 3.5 and 1.0 *)
Definition f3_5 : float := S754_finite false 7881299347898368 (-51).
Definition f1 : float := Concrete.float_one.

(** Two texts, of two lines and of no line, nothing computed yet. *)
Definition batch1 : Samples := {|
  text := [str "abcd" ++ [10%N] ++ str "ef"; []];
  stats := [∅; ∅];
  context := Some [∅; ∅];
|}.

(** The first record already has a metric, which is not the average line
    length of its text. *)
Definition batch2 : Samples := {|
  text := [str "ab"; str "abcd" ++ [10%N] ++ str "ef"];
  stats := [{[ avg_line_length := f1 ]}; ∅];
  context := None;
|}.

Definition narrow : AverageLineLengthFilter.t := {| min_len := 2; max_len := 5 |}.
Definition wide : AverageLineLengthFilter.t := {| min_len := 1; max_len := 10 |}.

Definition computed : list (gmap string float) :=
  [{[ avg_line_length := f3_5 ]}; {[ avg_line_length := float_zero ]}].

(** A seed record of one question and its answer. *)
Definition question1 : pystr := str "What is 2+2?".
Definition answer1 : pystr := str "4".
Definition record1 : pystr :=
  Concrete.chatml_line
    [Concrete.chatml_message "user" "What is 2+2?";
     Concrete.chatml_message "assistant" "4"].
Definition messages1 : list json :=
  [JObj [(str "role", JStr (str "user")); (str "content", JStr question1)];
   JObj [(str "role", JStr (str "assistant")); (str "content", JStr answer1)]].

(** A record without messages. *)
Definition record0 : pystr := Concrete.chatml_line [].

(** A response of the model with one pair, and one without markers. *)
Definition question2 : pystr := str "What is the capital of France?".
Definition answer2 : pystr := str "Paris".
Definition response1 : pystr :=
  Concrete.question_mark ++ [10%N] ++ question2 ++ [10%N]
  ++ Concrete.answer_mark ++ [10%N] ++ answer2 ++ [10%N].
Definition response0 : pystr := str "I cannot help with that.".

Definition mapper1 : GenerateInstructionMapper.t := {|
  text_key := "text";
  instruct_num := 1;
  similarity_threshold := arg_similarity_threshold Concrete.args;
  similarity_type := "rouge_l";
  qa_extraction_pattern := QA_EXTRACTION_PATTERN;
  model_key := str "Qwen/Qwen-7B-Chat";
  seed_qa_samples := [[(JStr question1, JStr answer1)]];
  reference_samples := [question1 ++ [10%N] ++ answer1 ++ [10%N]];
|}.

End Examples.

(** ** More sample inputs *)

Module MoreExamples.

Import AverageLineLengthFilter GenerateInstructionMapper Examples.

(** A one-line text and an empty text; the first record holds another
    metric; no context column. *)
Definition batch3 : Samples := {|
  text := [str "ab"; []];
  stats := [{[ "num_words" := f1 ]}; ∅];
  context := None;
|}.

(** The same batch without its text column. *)
Definition batch4 : Samples := {|
  text := [];
  stats := stats batch3;
  context := None;
|}.

(** An environment whose file system is a list of named files. *)
Definition lookup_file (files : list (pystr * pystr)) (path : pystr)
    : result pystr :=
  match List.find (fun f => bool_decide (fst f = path)) files with
  | Some f => Ok (snd f)
  | None => Err OSError
  end.

Definition env_files (files : list (pystr * pystr)) (response : pystr)
    : External := {|
  json_loads := Concrete.loads;
  float_repr := fun _ => str "0.0";
  re_findall := fun pattern s =>
    Ok (List.map (fun qa => MatchGroups [fst qa; snd qa])
          (Concrete.findall pattern s));
  rouge_l_f := Concrete.similarity;
  open_read := lookup_file files;
  prepare_model := fun args => Ok (arg_hf_model args);
  infer := fun _ => Ok response;
|}.

Definition record2 : pystr :=
  Concrete.chatml_line
    [Concrete.chatml_message "user" "Capital of France?";
     Concrete.chatml_message "assistant" "Paris"].

Definition two_files : list (pystr * pystr) :=
  [(str "a.jsonl", record1 ++ [10%N]);
   (str "b.jsonl", record2 ++ [10%N]);
   (str "ab.jsonl", (record1 ++ [10%N]) ++ record2 ++ [10%N])].

(** A record with a system message before its pair. *)
Definition record_system : pystr :=
  Concrete.chatml_line
    [Concrete.chatml_message "system" "Be brief.";
     Concrete.chatml_message "user" "What is 2+2?";
     Concrete.chatml_message "assistant" "4"].

Definition system_message : json :=
  JObj [(str "role", JStr (str "system")); (str "content", JStr (str "Be brief."))].

(** An object without a messages member. *)
Definition record_no_messages : pystr :=
  str "{" ++ Concrete.dq ++ str "text" ++ Concrete.dq ++ str ": 1}".

(** A response that repeats the seed record of [mapper1]. *)
Definition response_copy : pystr :=
  Concrete.question_mark ++ [10%N] ++ question1 ++ [10%N]
  ++ Concrete.answer_mark ++ [10%N] ++ answer1 ++ [10%N].






End MoreExamples.

(** * Properties *)

(** ** The embedding on concrete values *)

Section checks.

Import AverageLineLengthFilter GenerateInstructionMapper Examples.

(** ["a\nb\r\n\r\nc\n".splitlines() == ['a', 'b', '', 'c']] *)
Example splitlines_mixed :
  splitlines (str "a" ++ [10%N] ++ str "b" ++ [13; 10; 13; 10]%N ++ str "c" ++ [10%N])
  = [str "a"; str "b"; []; str "c"].
Proof. reflexivity. Qed.

(** A text without a line break is one line. *)
Example splitlines_unterminated : splitlines (str "abc") = [str "abc"].
Proof. reflexivity. Qed.

Example strip_both_ends :
  strip ([32; 9]%N ++ str "a b" ++ [13; 10]%N) = str "a b".
Proof. reflexivity. Qed.

(** [7 / 2 == 3.5], and [1 / 3] is the double nearest to one third. *)
Example true_quotient_exact : true_quotient 7 2 = f3_5.
Proof. reflexivity. Qed.

Example true_quotient_rounded :
  true_quotient 1 3 = S754_finite false 6004799503160661 (-54).
Proof. reflexivity. Qed.

(** [2 <= 3.5 <= 5], and [10 <= 3.5] does not hold. *)
Example compare_int_float :
  int_le_float 2 f3_5 = true /\ float_le_int f3_5 5 = true /\
  int_le_float 10 f3_5 = false.
Proof. repeat split. Qed.

Example readlines_keeps_ends :
  readlines (str "a" ++ [10; 10]%N ++ str "b") = [str "a" ++ [10%N]; [10%N]; str "b"].
Proof. reflexivity. Qed.

Example loads_record : Concrete.loads record1 = Ok (JObj [(str "messages", JArr messages1)]).
Proof. reflexivity. Qed.

Example loads_empty : Concrete.loads [] = Err JSONDecodeError.
Proof. reflexivity. Qed.

(** Non-ASCII characters are escaped only when [ensure_ascii] is set. *)
Example encode_non_ascii :
  encode_basestring true [233%N] = [34; 92]%N ++ str "u00e9" ++ [34%N] /\
  encode_basestring false [233%N] = [34; 233; 34]%N.
Proof. split; reflexivity. Qed.

(** Construction from a seed file of one record. *)
Example init_one_record :
  @init (Concrete.env (record1 ++ [10%N]) []) Concrete.args = Ok mapper1.
Proof. reflexivity. Qed.

(** A record that starts with two user messages: the pair uses the second. *)
Example parse_two_users :
  @parse_chatml_str (Concrete.env [] [])
    (Concrete.chatml_line
       [Concrete.chatml_message "user" "first";
        Concrete.chatml_message "user" "second";
        Concrete.chatml_message "assistant" "reply"])
  = Ok [(JStr (str "second"), JStr (str "reply"))].
Proof. reflexivity. Qed.

(** A record that starts with an assistant message: the pair has no
    question; two assistant messages in a row share the user message. *)
Example parse_assistant_first :
  @parse_chatml_str (Concrete.env [] []) Concrete.assistant_first
  = Ok [(JNull, JStr (str "4"))].
Proof. reflexivity. Qed.

Example parse_two_assistants :
  @parse_chatml_str (Concrete.env [] [])
    (Concrete.chatml_line
       [Concrete.chatml_message "user" "q";
        Concrete.chatml_message "assistant" "a1";
        Concrete.chatml_message "assistant" "a2"])
  = Ok [(JStr (str "q"), JStr (str "a1")); (JStr (str "q"), JStr (str "a2"))].
Proof. reflexivity. Qed.

End checks.

(** ** The error monad *)

Lemma bind_Ok {A B} (r : result A) (f : A -> result B) (b : B) :
  r ≫= f = Ok b <-> exists a, r = Ok a /\ f a = Ok b.
Proof.
  destruct r as [a|e]; simpl; split.
  - intros Hf. exists a. split; [reflexivity | exact Hf].
  - intros (a' & Ha & Hf). injection Ha as ->. exact Hf.
  - discriminate.
  - intros (a' & Ha & _). discriminate.
Qed.

Lemma list_getitem_Ok {A} (l : list A) (i : nat) (a : A) :
  list_getitem l i = Ok a <-> l !! i = Some a.
Proof.
  unfold list_getitem. destruct (l !! i); split; intros Heq;
    try discriminate; congruence.
Qed.

Lemma dict_getitem_Ok {A} (d : gmap string A) (k : string) (a : A) :
  dict_getitem d k = Ok a <-> d !! k = Some a.
Proof.
  unfold dict_getitem. destruct (d !! k); split; intros Heq;
    try discriminate; congruence.
Qed.

(** ** Line splitting *)

Lemma splitlines_from_nil (line s : pystr) :
  splitlines_from line s = [] <-> line = [] /\ s = [].
Proof.
  revert line. induction s as [|c s IH]; intros line; simpl.
  - destruct line; split; intros Heq; try discriminate; try tauto.
    destruct Heq; discriminate.
  - destruct (is_linebreak c).
    + split; [discriminate | intros [_ Heq]; discriminate].
    + rewrite IH. split.
      * intros [Heq _]. destruct line; discriminate.
      * intros [_ Heq]. discriminate.
Qed.

Lemma splitlines_nil (s : pystr) : splitlines s = [] <-> s = [].
Proof. unfold splitlines. rewrite splitlines_from_nil. tauto. Qed.

(** ** [compute_stats] *)

Section compute_stats_properties.

Import AverageLineLengthFilter.

Variable ctx : bool.

Lemma compute_stats_step_inv (s s' : Samples) (i : nat) :
  compute_stats_step ctx s i = Ok s' ->
  exists stat, stats s !! i = Some stat /\
    ((is_Some (stat !! avg_line_length) /\ s' = s) \/
     (stat !! avg_line_length = None /\ text s' = text s /\
      exists v,
        stats s' = <[i := <[avg_line_length := v]> stat]> (stats s) /\
        (forall T, text s !! i = Some T -> v = average T (lines_for ctx s i T)) /\
        (context s' = context s \/
         exists cs c lines,
           context s = Some cs /\ cs !! i = Some c /\
           context s' = Some (<[i := <[lines_key := lines]> c]> cs)))).
Proof.
  unfold compute_stats_step. intros Hstep.
  apply bind_Ok in Hstep as (stat & Hstat & Hstep).
  apply list_getitem_Ok in Hstat. exists stat. split; [exact Hstat|].
  destruct (decide (is_Some (stat !! avg_line_length))) as [Hin|Hnin].
  { left. split; [exact Hin | congruence]. }
  right. split; [by apply eq_None_not_Some|].
  apply bind_Ok in Hstep as ([lines s1] & Hlines & Hstep).
  apply bind_Ok in Hstep as (v & Hv & Hstep).
  injection Hstep as <-. simpl.
  unfold lines_at in Hlines.
  apply bind_Ok in Hlines as (cached & Hcached & Hlines).
  assert (Hc : cached = cached_lines ctx s i).
  { unfold cached_lines. destruct ctx; [|by injection Hcached].
    apply bind_Ok in Hcached as (c & Hc & Hcached). injection Hcached as <-.
    unfold context_at in Hc. destruct (context s) as [cs|]; [|discriminate].
    apply list_getitem_Ok in Hc. simpl. by rewrite Hc. }
  assert (Hframe : text s1 = text s /\ stats s1 = stats s /\
            (forall T, text s !! i = Some T -> lines = lines_for ctx s i T) /\
            (context s1 = context s \/
             exists cs c lines,
               context s = Some cs /\ cs !! i = Some c /\
               context s1 = Some (<[i := <[lines_key := lines]> c]> cs))).
  { unfold lines_for. rewrite <- Hc. destruct cached as [l|].
    - injection Hlines as <- <-. simpl. auto.
    - apply bind_Ok in Hlines as (t & Ht & Hlines).
      apply list_getitem_Ok in Ht.
      assert (HT : forall T, text s !! i = Some T -> splitlines t = splitlines T)
        by (intros T HT; congruence).
      destruct ctx.
      + destruct (context s) as [cs|] eqn:Hcs; [|discriminate].
        apply bind_Ok in Hlines as (c & Hci & Hlines).
        apply list_getitem_Ok in Hci. injection Hlines as <- <-. simpl.
        repeat split; [exact HT|]. right. by exists cs, c, (splitlines t).
      + injection Hlines as <- <-. simpl. auto. }
  destruct Hframe as (Htext & Hstats & Hl & Hcontext).
  split; [exact Htext|]. exists v. rewrite Hstats.
  split; [reflexivity|]. split; [|exact Hcontext].
  intros T HT. rewrite <- (Hl T HT). unfold average.
  unfold metric_at in Hv. destruct (decide (length lines ≠ 0%nat)) as [Hne|].
  - apply bind_Ok in Hv as (t & Ht & Hv). apply list_getitem_Ok in Ht.
    rewrite Htext, HT in Ht. injection Ht as <-.
    unfold int_truediv in Hv. destruct (decide _); [discriminate|].
    by injection Hv.
  - by injection Hv.
Qed.

(** What one iteration leaves alone. *)
Lemma compute_stats_step_frame (s s' : Samples) (i : nat) :
  compute_stats_step ctx s i = Ok s' ->
  text s' = text s /\
  length (stats s') = length (stats s) /\
  (forall j, j ≠ i -> stats s' !! j = stats s !! j) /\
  (forall j, j ≠ i -> cached_lines ctx s' j = cached_lines ctx s j) /\
  (aligned ctx s -> aligned ctx s').
Proof.
  intros Hstep. apply compute_stats_step_inv in Hstep
    as (stat & Hstat & [[_ ->] | (_ & Htext & v & Hstats & _ & Hcontext)]).
  { repeat apply conj; auto. }
  assert (Hcached : forall j, j ≠ i -> cached_lines ctx s' j = cached_lines ctx s j).
  { intros j Hj. unfold cached_lines.
    destruct Hcontext as [-> | (cs & c & lines & Hcs & _ & ->)]; [reflexivity|].
    rewrite Hcs. destruct ctx; [simpl | reflexivity].
    by rewrite list_lookup_insert_ne. }
  assert (Hlen : length (stats s') = length (stats s))
    by (rewrite Hstats; apply length_insert).
  split; [exact Htext|]. split; [exact Hlen|]. split.
  { intros j Hj. rewrite Hstats. by apply list_lookup_insert_ne. }
  split; [exact Hcached|]. intros [Hal1 Hal2]. split.
  - by rewrite Hlen, Htext.
  - intros Hctx. destruct (Hal2 Hctx) as (cs & Hcs & Hle).
    rewrite Hlen.
    destruct Hcontext as [-> | (cs' & c & lines & Hcs' & _ & ->)]; [eauto|].
    eexists. split; [reflexivity|]. rewrite length_insert. congruence.
Qed.

(** On an aligned batch an iteration raises nothing. *)
Lemma compute_stats_step_total (s : Samples) (i : nat) :
  aligned ctx s -> (i < length (stats s))%nat ->
  is_Ok (compute_stats_step ctx s i).
Proof.
  intros [Htext Hctx] Hi. unfold compute_stats_step.
  destruct (lookup_lt_is_Some_2 (stats s) i Hi) as [stat Hstat].
  destruct (lookup_lt_is_Some_2 (text s) i ltac:(lia)) as [T HT].
  unfold list_getitem at 1. rewrite Hstat. simpl.
  destruct (decide _); [by eexists|].
  assert (Hlines : exists lines s1, lines_at ctx s i = Ok (lines, s1) /\
                                    text s1 = text s).
  { unfold lines_at, context_at, list_getitem. destruct ctx; simpl.
    - destruct (Hctx eq_refl) as (cs & Hcs & Hle). rewrite Hcs.
      destruct (lookup_lt_is_Some_2 cs i ltac:(lia)) as [c Hc].
      rewrite Hc. simpl. destruct (c !! lines_key); [by eauto|].
      rewrite HT. simpl. by eauto.
    - rewrite HT. simpl. by eauto. }
  destruct Hlines as (lines & s1 & -> & Htext1). simpl.
  unfold metric_at, list_getitem, int_truediv. rewrite Htext1, HT.
  destruct (decide (length lines ≠ 0%nat)); simpl; [|by eexists].
  destruct (decide _); [lia | by eexists].
Qed.

Lemma compute_stats_loop_total (idx : list nat) (s : Samples) :
  aligned ctx s -> Forall (fun i => (i < length (stats s))%nat) idx ->
  is_Ok (compute_stats_loop ctx s idx).
Proof.
  revert s. induction idx as [|i idx IH]; intros s Hal Hidx; simpl.
  - by eexists.
  - apply Forall_cons in Hidx as [Hi Hidx].
    destruct (compute_stats_step_total s i Hal Hi) as [s1 Hs1].
    rewrite Hs1. simpl.
    apply compute_stats_step_frame in Hs1 as (_ & Hlen & _ & _ & Hal1).
    apply IH; [auto|]. by rewrite Hlen.
Qed.

(** The effect of the whole loop on every stats record. *)
Lemma compute_stats_loop_inv (idx : list nat) (s s' : Samples) :
  compute_stats_loop ctx s idx = Ok s' ->
  text s' = text s /\
  length (stats s') = length (stats s) /\
  (forall j stat, stats s !! j = Some stat ->
     j ∉ idx \/ is_Some (stat !! avg_line_length) ->
     stats s' !! j = Some stat) /\
  (forall j stat, j ∈ idx -> stats s !! j = Some stat ->
     stat !! avg_line_length = None ->
     exists v, stats s' !! j = Some (<[avg_line_length := v]> stat) /\
       forall T, text s !! j = Some T -> v = average T (lines_for ctx s j T)).
Proof.
  revert s. induction idx as [|i idx IH]; intros s; simpl.
  { intros [= <-]. repeat split; auto. intros j stat Hj. by apply elem_of_nil in Hj. }
  intros Hloop. apply bind_Ok in Hloop as (s1 & Hstep & Hloop).
  destruct (IH _ Hloop) as (Htext' & Hlen' & Hkeep' & Hnew').
  pose proof (compute_stats_step_frame _ _ _ Hstep)
    as (Htext & Hlen & Hother & Hcached & _).
  apply compute_stats_step_inv in Hstep as (stat_i & Hstat_i & Hcase).
  split; [congruence|]. split; [congruence|]. split.
  - intros j stat Hj Hcond. apply Hkeep'.
    + destruct (decide (j = i)) as [->|Hne]; [|by rewrite Hother].
      destruct Hcase as [[_ ->] | (Hnone & _)]; [done|].
      destruct Hcond as [Hnotin | [x Hx]]; [|congruence].
      exfalso. apply Hnotin. by left.
    + destruct Hcond as [Hnotin | Hsome]; [|by right].
      left. intros Hin. apply Hnotin. by right.
  - intros j stat Hj Hstat Hnone.
    destruct (decide (j = i)) as [->|Hne].
    + destruct Hcase as [[[x Hx] _] | (_ & _ & v & Hstats & Hv & _)]; [congruence|].
      exists v. rewrite Hstat_i in Hstat. injection Hstat as <-.
      split; [|exact Hv]. apply Hkeep'.
      * rewrite Hstats. apply list_lookup_insert_eq. by eapply lookup_lt_Some.
      * right. rewrite lookup_insert_eq. by eexists.
    + apply elem_of_cons in Hj as [?|Hj]; [done|].
      destruct (Hnew' j stat Hj) as (v & Hv1 & Hv2); [by rewrite Hother | done |].
      exists v. split; [exact Hv1|]. intros T HT.
      rewrite (Hv2 T) by congruence. unfold lines_for. by rewrite Hcached.
Qed.

(** Once every record has the metric the loop changes nothing. *)
Lemma compute_stats_loop_noop (idx : list nat) (s : Samples) :
  Forall (fun i => exists stat, stats s !! i = Some stat /\
                                is_Some (stat !! avg_line_length)) idx ->
  compute_stats_loop ctx s idx = Ok s.
Proof.
  induction idx as [|i idx IH]; intros Hall; simpl; [reflexivity|].
  apply Forall_cons in Hall as [(stat & Hstat & Hsome) Hall].
  unfold compute_stats_step, list_getitem. rewrite Hstat. simpl.
  destruct (decide _); [|done]. simpl. by apply IH.
Qed.

End compute_stats_properties.

Section compute_stats_claims.

Import AverageLineLengthFilter.

(** C1.  On an aligned batch, for a sample with text [T] whose metric is not
    yet stored (and whose cached line split, if one is consulted, is the
    split of [T]), [compute_stats] returns and stores as avg_line_length
    exactly [len(T) / L], where [L] is the number of lines of [T], when
    [L > 0], and exactly [0.0] when [L = 0], which happens for the empty text
    only. *)
Theorem compute_stats_average_line_length
    (self : t) (samples : Samples) (ctx : bool) (i : nat) (T : pystr)
    (stat : gmap string float) :
  aligned ctx samples ->
  text samples !! i = Some T ->
  stats samples !! i = Some stat ->
  stat !! avg_line_length = None ->
  cached_lines ctx samples i = None \/
    cached_lines ctx samples i = Some (splitlines T) ->
  let L := length (splitlines T) in
  exists samples' v,
    compute_stats self samples ctx = Ok samples' /\
    stats samples' !! i = Some (<[avg_line_length := v]> stat) /\
    ((0 < L)%nat -> v = true_quotient (Z.of_nat (length T)) (Z.of_nat L)) /\
    (L = 0%nat -> v = float_zero) /\
    (L = 0%nat <-> T = []).
Proof.
  intros Hal HT Hstat Hnone Hcache L. unfold compute_stats.
  assert (Hi : (i < length (stats samples))%nat) by by eapply lookup_lt_Some.
  destruct (compute_stats_loop_total ctx (seq 0 (length (stats samples))) samples Hal)
    as [samples' Hrun].
  { apply Forall_forall. intros j Hj. apply elem_of_seq in Hj. lia. }
  destruct (compute_stats_loop_inv ctx _ _ _ Hrun) as (_ & _ & _ & Hnew).
  destruct (Hnew i stat) as (v & Hv & Hval); [apply elem_of_seq; lia | done | done |].
  exists samples', v. split; [exact Hrun|]. split; [exact Hv|].
  assert (Hlines : lines_for ctx samples i T = splitlines T).
  { unfold lines_for. by destruct Hcache as [-> | ->]. }
  specialize (Hval T HT). rewrite Hlines in Hval. unfold average in Hval.
  fold L in Hval. split; [|split].
  - intros HL. destruct (decide (L ≠ 0%nat)); [exact Hval | lia].
  - intros HL. destruct (decide (L ≠ 0%nat)); [lia | exact Hval].
  - unfold L. rewrite length_zero_iff_nil. apply splitlines_nil.
Qed.

(** C6.  When [compute_stats] returns, every stats record that already had
    the avg_line_length key is unchanged, and running [compute_stats] again
    on the result returns the result itself. *)
Theorem compute_stats_memoized
    (self : t) (samples samples' : Samples) (ctx : bool) :
  compute_stats self samples ctx = Ok samples' ->
  (forall i stat, stats samples !! i = Some stat ->
     is_Some (stat !! avg_line_length) -> stats samples' !! i = Some stat) /\
  compute_stats self samples' ctx = Ok samples'.
Proof.
  unfold compute_stats. intros Hrun.
  destruct (compute_stats_loop_inv ctx _ _ _ Hrun) as (_ & Hlen & Hkeep & Hnew).
  split.
  - intros i stat Hstat Hsome. apply (Hkeep i stat Hstat). by right.
  - apply compute_stats_loop_noop. apply Forall_forall. intros j Hj.
    apply elem_of_seq in Hj. rewrite Hlen in Hj.
    destruct (lookup_lt_is_Some_2 (stats samples) j ltac:(lia)) as [stat Hstat].
    destruct (stat !! avg_line_length) as [x|] eqn:Hx.
    + exists stat. split; [|by rewrite Hx]. apply Hkeep; [done|]. right. by rewrite Hx.
    + destruct (Hnew j stat) as (v & Hv & _); [apply elem_of_seq; lia | done | done |].
      eexists. split; [exact Hv|]. rewrite lookup_insert_eq. by eexists.
Qed.

End compute_stats_claims.

(** ** Comparing ints with floats *)

Lemma finite_value_nonneg (s : bool) (m : positive) (e : Z) :
  0 <= e ->
  (finite_value s m e == inject_Z (cond_Zopp s (Zpos m) * 2 ^ e))%Q.
Proof.
  intros He. unfold finite_value. rewrite inject_Z_mult.
  by rewrite (Zpower_Qpower 2 e He).
Qed.

Lemma finite_value_neg (s : bool) (m : positive) (e : Z) :
  e < 0 ->
  (finite_value s m e == cond_Zopp s (Zpos m) # Z.to_pos (2 ^ (- e)))%Q.
Proof.
  intros He. unfold finite_value.
  replace e with (- - e) at 1 by lia.
  rewrite Qpower_opp, <- (Zpower_Qpower 2 (- e)) by lia.
  assert (Hpos : 0 < 2 ^ (- e)) by (apply Z.pow_pos_nonneg; lia).
  destruct (2 ^ (- e)) as [|p|p] eqn:Hp; try lia.
  unfold Qeq, Qmult, Qinv, inject_Z. simpl. lia.
Qed.

Lemma float_cmp_int_finite (s : bool) (m : positive) (e n : Z) (c : comparison) :
  float_cmp_int (S754_finite s m e) n = Some c ->
  (finite_value s m e ?= inject_Z n)%Q = c.
Proof.
  simpl. intros [= <-]. destruct (Z.leb_spec 0 e) as [He|He].
  - rewrite (finite_value_nonneg s m e He). unfold Qcompare, inject_Z. simpl.
    by rewrite !Z.mul_1_r.
  - rewrite (finite_value_neg s m e He). unfold Qcompare, inject_Z. simpl.
    rewrite Z.mul_1_r.
    assert (Hpos : 0 < 2 ^ (- e)) by (apply Z.pow_pos_nonneg; lia).
    by rewrite Z2Pos.id.
Qed.

Lemma int_le_float_spec (n : Z) (x : float) :
  int_le_float n x = true <-> Zle_float n x.
Proof.
  unfold int_le_float. destruct x as [s|s| |s m e].
  - destruct n; cbn; split; intros; try done; lia.
  - simpl. by destruct s.
  - simpl. split; [discriminate | tauto].
  - destruct (float_cmp_int (S754_finite s m e) n) as [c|] eqn:Hc; [|discriminate].
    apply float_cmp_int_finite in Hc. unfold Zle_float.
    rewrite Qle_alt, <- Qcompare_antisym, Hc.
    destruct c; simpl; split; intros; congruence.
Qed.

Lemma float_le_int_spec (x : float) (n : Z) :
  float_le_int x n = true <-> float_leZ x n.
Proof.
  unfold float_le_int. destruct x as [s|s| |s m e].
  - destruct n; cbn; split; intros; try done; lia.
  - simpl. by destruct s.
  - simpl. split; [discriminate | tauto].
  - destruct (float_cmp_int (S754_finite s m e) n) as [c|] eqn:Hc; [|discriminate].
    apply float_cmp_int_finite in Hc. unfold float_leZ.
    rewrite Qle_alt, Hc.
    destruct c; simpl; split; intros; congruence.
Qed.

Lemma Zle_float_mono (n n' : Z) (x : float) :
  n' <= n -> Zle_float n x -> Zle_float n' x.
Proof.
  intros Hle. destruct x as [s|s| |s m e]; simpl; try done; [lia|].
  intros Hx. eapply Qle_trans; [|exact Hx]. by rewrite <- Zle_Qle.
Qed.

Lemma float_leZ_mono (n n' : Z) (x : float) :
  n <= n' -> float_leZ x n -> float_leZ x n'.
Proof.
  intros Hle. destruct x as [s|s| |s m e]; simpl; try done; [lia|].
  intros Hx. eapply Qle_trans; [exact Hx|]. by rewrite <- Zle_Qle.
Qed.

(** ** [process] of the filter *)

Section process_properties.

Import AverageLineLengthFilter.

Lemma in_range_Ok (self : t) (stat : gmap string float) (b : bool) :
  in_range self stat = Ok b <->
  exists v, stat !! avg_line_length = Some v /\
            b = int_le_float (min_len self) v && float_le_int v (max_len self).
Proof.
  unfold in_range. rewrite bind_Ok. split.
  - intros (v & Hv & Hb). apply dict_getitem_Ok in Hv. exists v.
    split; [exact Hv | by injection Hb].
  - intros (v & Hv & ->). exists v. by rewrite dict_getitem_Ok.
Qed.

Lemma in_range_kept (self : t) (stat : gmap string float) (v : float) (b : bool) :
  stat !! avg_line_length = Some v ->
  in_range self stat = Ok b -> (b = true <-> kept self v).
Proof.
  intros Hv Hb. apply in_range_Ok in Hb as (v' & Hv' & ->).
  rewrite Hv in Hv'. injection Hv' as <-. unfold kept.
  by rewrite andb_true_iff, int_le_float_spec, float_le_int_spec.
Qed.

(** The batched loop appends, in order, the decision of every record. *)
Lemma process_loop_spec (self : t) (l : list (gmap string float))
    (acc bs : list bool) :
  process_loop self l acc = Ok bs <->
  exists ds, bs = acc ++ ds /\
             Forall2 (fun stat d => in_range self stat = Ok d) l ds.
Proof.
  revert acc. induction l as [|stat l IH]; intros acc; simpl.
  - split.
    + intros [= <-]. exists []. by rewrite app_nil_r.
    + intros (ds & -> & Hds). apply Forall2_nil_inv_l in Hds as ->.
      by rewrite app_nil_r.
  - rewrite bind_Ok. split.
    + intros (b & Hb & Hrest).
      assert (Hloop : process_loop self l (acc ++ [b]) = Ok bs)
        by by destruct b.
      apply IH in Hloop as (ds & -> & Hds). exists (b :: ds).
      split; [by rewrite <- app_assoc | by constructor].
    + intros (ds & -> & Hds).
      apply Forall2_cons_inv_l in Hds as (b & ds' & Hb & Hds' & ->).
      exists b. split; [exact Hb|].
      assert (Hloop : process_loop self l (acc ++ [b]) = Ok (acc ++ b :: ds')).
      { apply IH. exists ds'. split; [by rewrite <- app_assoc | done]. }
      by destruct b.
Qed.

Lemma process_single (self : t) (stat : gmap string float) (b : bool) :
  process self (StatsRecord stat) = Ok (Bool b) <-> in_range self stat = Ok b.
Proof.
  simpl. destruct (in_range self stat) as [[]|e]; simpl;
    split; intros Heq; congruence.
Qed.

Lemma process_batched (self : t) (l : list (gmap string float)) (bs : list bool) :
  process self (StatsList l) = Ok (BoolList bs) <->
  Forall2 (fun stat b => in_range self stat = Ok b) l bs.
Proof.
  simpl. rewrite bind_Ok. split.
  - intros (bs' & Hloop & [= <-]).
    by apply process_loop_spec in Hloop as (ds & -> & Hds).
  - intros Hds. exists bs. split; [|done]. apply process_loop_spec. by exists bs.
Qed.

(** When every record has the metric, both modes return, with the same
    decisions. *)
Lemma process_total (self : t) (l : list (gmap string float)) :
  Forall (fun stat => is_Some (stat !! avg_line_length)) l ->
  exists bs,
    Forall2 (fun stat b => in_range self stat = Ok b) l bs /\
    process self (StatsList l) = Ok (BoolList bs) /\
    Forall2 (fun stat b => process self (StatsRecord stat) = Ok (Bool b)) l bs.
Proof.
  intros Hall.
  assert (Hds : exists bs, Forall2 (fun stat b => in_range self stat = Ok b) l bs).
  { induction Hall as [|stat l [v Hv] _ [bs IH]]; [by exists []|].
    eexists (_ :: bs). constructor; [|exact IH].
    apply in_range_Ok. by exists v. }
  destruct Hds as [bs Hds]. exists bs. split; [exact Hds|].
  split; [by apply process_batched|].
  eapply Forall2_impl; [exact Hds|]. intros stat b. by apply process_single.
Qed.

(** C3.  On a batch in which every record has the metric, the batched
    invocation returns a list whose entry for each sample is the decision
    the single-sample invocation returns for that sample's record. *)
Theorem process_batched_agrees_with_single
    (self : t) (l : list (gmap string float)) :
  Forall (fun stat => is_Some (stat !! avg_line_length)) l ->
  exists bs,
    process self (StatsList l) = Ok (BoolList bs) /\
    Forall2 (fun stat b => process self (StatsRecord stat) = Ok (Bool b)) l bs.
Proof.
  intros Hall. destruct (process_total self l Hall) as (bs & _ & Hbs & Hsingle).
  by exists bs.
Qed.

(** C5.  A record with metric [v] is kept exactly when
    [min_len <= v <= max_len], both bounds included; in batched mode the
    result has one boolean per record, in the order of the records. *)
Theorem process_keeps_in_range
    (self : t) (l : list (gmap string float)) (vs : list float) :
  Forall2 (fun stat v => stat !! avg_line_length = Some v) l vs ->
  exists bs,
    process self (StatsList l) = Ok (BoolList bs) /\
    Forall2 (fun v b => b = true <-> kept self v) vs bs /\
    Forall2 (fun stat b => process self (StatsRecord stat) = Ok (Bool b)) l bs.
Proof.
  intros Hvs.
  destruct (process_total self l) as (bs & Hds & Hbs & Hsingle).
  { clear -Hvs. induction Hvs as [|stat v l vs Hv _ IH]; constructor; [|exact IH].
    by rewrite Hv. }
  exists bs. split; [exact Hbs|]. split; [|exact Hsingle].
  clear Hbs Hsingle. revert vs Hvs.
  induction Hds as [|stat b l bs Hb _ IH]; intros vs Hvs.
  - apply Forall2_nil_inv_l in Hvs as ->. constructor.
  - apply Forall2_cons_inv_l in Hvs as (v & vs' & Hv & Hvs' & ->).
    constructor; [by eapply in_range_kept | by apply IH].
Qed.

Lemma in_range_widen (self self' : t) (stat : gmap string float) (b : bool) :
  min_len self' <= min_len self -> max_len self <= max_len self' ->
  in_range self stat = Ok b ->
  exists b', in_range self' stat = Ok b' /\ (b = true -> b' = true).
Proof.
  intros Hmin Hmax Hb.
  pose proof Hb as Hb0. apply in_range_Ok in Hb0 as (v & Hv & _).
  eexists. split; [apply in_range_Ok; by exists v|].
  intros Htrue. apply (in_range_kept self stat v b Hv Hb) in Htrue as [Hlo Hhi].
  apply andb_true_iff. rewrite int_le_float_spec, float_le_int_spec. split.
  - by apply (Zle_float_mono (min_len self)).
  - by apply (float_leZ_mono (max_len self)).
Qed.

(** C9.  Widening the bounds never turns a keep into a drop: a record kept
    under [min_len, max_len] is kept under every [min_len', max_len'] with
    [min_len' <= min_len] and [max_len <= max_len'], in single-sample mode
    and at every position of a batch. *)
Theorem process_monotone (self self' : t) :
  min_len self' <= min_len self -> max_len self <= max_len self' ->
  (forall stat,
     process self (StatsRecord stat) = Ok (Bool true) ->
     process self' (StatsRecord stat) = Ok (Bool true)) /\
  (forall l bs,
     process self (StatsList l) = Ok (BoolList bs) ->
     exists bs',
       process self' (StatsList l) = Ok (BoolList bs') /\
       length bs' = length bs /\
       forall i : nat, bs !! i = Some true -> bs' !! i = Some true).
Proof.
  intros Hmin Hmax. split.
  - intros stat Hkeep. apply process_single in Hkeep.
    destruct (in_range_widen self self' stat true Hmin Hmax Hkeep) as (b' & Hb' & Htrue).
    apply process_single. by rewrite <- (Htrue eq_refl).
  - intros l bs Hbs. apply process_batched in Hbs.
    assert (Hbs' : exists bs',
              Forall2 (fun stat b => in_range self' stat = Ok b) l bs' /\
              Forall2 (fun b b' : bool => b = true -> b' = true) bs bs').
    { induction Hbs as [|stat b l bs Hb _ (bs' & IH1 & IH2)]; [by exists []|].
      destruct (in_range_widen self self' stat b Hmin Hmax Hb) as (b' & Hb' & Htrue).
      exists (b' :: bs'). split; by constructor. }
    destruct Hbs' as (bs' & Hbs' & Himp). exists bs'.
    split; [by apply process_batched|].
    split; [symmetry; by eapply Forall2_length|].
    intros i Hi.
    destruct (Forall2_lookup_l _ _ _ _ _ Himp Hi) as (b' & Hb' & Htrue).
    by rewrite Hb', (Htrue eq_refl).
Qed.

End process_properties.

(** ** The seed parser *)

Section seed_parser.

Import GenerateInstructionMapper.
Context `{External}.

Lemma parse_chatml_str_messages (input_str : pystr) :
  parse_chatml_str input_str =
  messages_of input_str ≫= fun ms => parse_messages ms JNull JNull [].
Proof.
  unfold parse_chatml_str, messages_of.
  destruct (json_loads input_str) as [data|]; [simpl|reflexivity].
  by destruct (getitem_str data (str "messages")).
Qed.

Lemma last_user_snoc (before : list json) (m : json) :
  last_user (before ++ [m]) =
  if has_role "user" m then content_of m else last_user before.
Proof.
  unfold last_user. rewrite List.filter_app. simpl.
  destruct (has_role "user" m); [by rewrite last_snoc | by rewrite app_nil_r].
Qed.

Lemma has_role_exclusive (m : json) :
  has_role "user" m = true -> has_role "assistant" m = false.
Proof.
  unfold has_role. destruct (getitem_str m (str "role")) as [r|]; [|done].
  destruct r; simpl; try done. intros Hu. apply bool_decide_eq_true in Hu as ->.
  reflexivity.
Qed.

(** The loop, started after the messages [before], appends one pair for each
    assistant message that remains: the content of the last user message so
    far, [None] if there is none, with the content of the assistant
    message. *)
Lemma parse_messages_spec (rest before : list json) (a0 : json)
    (acc : list (json * json)) :
  Forall well_formed rest ->
  parse_messages rest (last_user before) a0 acc =
  Ok (acc ++ List.map (fun turn => (last_user (fst turn), content_of (snd turn)))
                      (assistant_turns before rest)).
Proof.
  intros Hwf. revert before a0 acc.
  induction Hwf as [|m rest [[role Hrole] [content Hcontent]] _ IH];
    intros before a0 acc; simpl.
  { by rewrite app_nil_r. }
  rewrite Hrole, Hcontent. simpl.
  assert (Hc : content_of m = content) by (unfold content_of; by rewrite Hcontent).
  assert (Hu : has_role "user" m = eq_str role (str "user"))
    by (unfold has_role; by rewrite Hrole).
  assert (Ha : has_role "assistant" m = eq_str role (str "assistant"))
    by (unfold has_role; by rewrite Hrole).
  pose proof (last_user_snoc before m) as Hlast. rewrite Hu, Hc in Hlast.
  pose proof (has_role_exclusive m) as Hex. rewrite Hu, Ha in Hex.
  rewrite Ha. destruct (eq_str role (str "user")).
  - rewrite (Hex eq_refl). simpl. by rewrite <- Hlast, IH.
  - destruct (eq_str role (str "assistant")).
    + rewrite <- Hlast at 1. rewrite IH. simpl.
      by rewrite Hc, <- app_assoc.
    + by rewrite <- Hlast, IH.
Qed.

Lemma parse_messages_alternates (ms : list json) (pairs : list (json * json)) :
  alternates ms pairs ->
  forall u a0 acc, parse_messages ms u a0 acc = Ok (acc ++ pairs).
Proof.
  induction 1 as [|mu ma q a ms pairs Hmu Hma _ IH]; intros u a0 acc; simpl.
  { by rewrite app_nil_r. }
  destruct Hmu as (ru & -> & Hru & ->). destruct Hma as (ra & -> & Hra & ->).
  simpl. rewrite Hru.
  assert (Hnot : eq_str ra (str "user") = false).
  { destruct ra; try done. simpl in *. apply bool_decide_eq_true in Hra as ->.
    reflexivity. }
  rewrite Hnot, Hra, IH. by rewrite <- app_assoc.
Qed.

(** C4, as the code has it.  The seed parser emits one pair for each
    assistant message of the record, in conversation order: the content of
    the most recent user message before it (whether or not an earlier pair
    used it already; [None] when no user message precedes it) with the
    content of the assistant message.  A record made of N user/assistant
    pairs yields exactly these N pairs, in order. *)
Theorem parse_chatml_str_pairs (input_str : pystr) (messages : list json) :
  messages_of input_str = Ok messages ->
  Forall well_formed messages ->
  parse_chatml_str input_str =
    Ok (List.map (fun turn => (last_user (fst turn), content_of (snd turn)))
                 (assistant_turns [] messages)) /\
  (forall pairs,
     alternates messages pairs -> parse_chatml_str input_str = Ok pairs).
Proof.
  intros Hms Hwf. rewrite parse_chatml_str_messages, Hms. simpl. split.
  - apply (parse_messages_spec messages [] JNull [] Hwf).
  - intros pairs Halt. by rewrite (parse_messages_alternates _ _ Halt).
Qed.

End seed_parser.

(** C4, as stated, fails: the record whose only message is an assistant
    message yields a pair, although it has no user message. *)
Lemma pairs_follow_user_and_assistant_fails :
  ~ @GenerateInstructionMapper.pairs_follow_user_and_assistant (Concrete.env [] []).
Proof.
  intros Hclaim.
  destruct (Hclaim Concrete.assistant_first
              [JObj [(str "role", JStr (str "assistant"));
                     (str "content", JStr (str "4"))]]
              [(JNull, JStr (str "4"))] eq_refl eq_refl JNull (JStr (str "4")))
    as (i & j & mu & ma & Hij & _ & _ & Hj & _).
  - apply list_elem_of_singleton. reflexivity.
  - destruct j as [|j]; [lia | discriminate].
Qed.

(** ** The seed loader and the construction of the mapper *)

Section seed_loader.

Import GenerateInstructionMapper.
Context `{External}.

(** The loop keeps, in order, the parsed records that have a pair. *)
Lemma load_lines_inv (lines : list pystr) (acc samples : list (list (json * json))) :
  load_lines lines acc = Ok samples ->
  exists parsed,
    Forall2 (fun line p => parse_chatml_str (strip line) = Ok p) lines parsed /\
    samples = acc ++ filter (fun p => (0 < length p)%nat) parsed.
Proof.
  revert acc. induction lines as [|line lines IH]; intros acc; simpl.
  { intros [= <-]. exists []. by rewrite app_nil_r. }
  intros Hrun. apply bind_Ok in Hrun as (p & Hp & Hrun).
  destruct (decide (0 < length p)%nat) as [Hlen|Hlen];
    apply IH in Hrun as (parsed & Hparsed & ->);
    exists (p :: parsed); (split; [by constructor|]).
  - rewrite filter_cons_True by done. by rewrite <- app_assoc.
  - by rewrite filter_cons_False.
Qed.

(** A line that fails to parse stops the loop with its exception. *)
Lemma load_lines_fails (before after : list pystr) (line : pystr) (e : exn)
    (acc : list (list (json * json))) :
  Forall (fun l => is_Ok (parse_chatml_str (strip l))) before ->
  parse_chatml_str (strip line) = Err e ->
  load_lines (before ++ line :: after) acc = Err e.
Proof.
  intros Hbefore Hline. revert acc.
  induction Hbefore as [|l before [p Hp] _ IH]; intros acc; simpl.
  - by rewrite Hline.
  - rewrite Hp. simpl. by destruct (decide _).
Qed.

Lemma load_lines_some_failure (lines : list pystr) (acc : list (list (json * json))) :
  Exists (fun l => exists e, parse_chatml_str (strip l) = Err e) lines ->
  exists e, load_lines lines acc = Err e.
Proof.
  intros Hex. revert acc.
  induction Hex as [l lines [e He]|l lines _ IH]; intros acc; simpl.
  - exists e. by rewrite He.
  - destruct (parse_chatml_str (strip l)) as [p|e]; simpl; [|by exists e].
    by destruct (decide _).
Qed.

Lemma lstrip_blank (line : pystr) :
  Forall (fun c => is_space c = true) line -> lstrip line = [].
Proof. induction 1 as [|c line Hc _ IH]; simpl; [done | by rewrite Hc]. Qed.

Lemma strip_blank (line : pystr) :
  Forall (fun c => is_space c = true) line -> strip line = [].
Proof. intros Hline. unfold strip. by rewrite (lstrip_blank line Hline). Qed.

(** A text that ends with two line feeds has a last line made of a line
    feed only. *)
Lemma readlines_from_trailing_blank (text line : pystr) :
  exists before, readlines_from line (text ++ [10; 10]%N) = before ++ [[10%N]].
Proof.
  revert line. induction text as [|c text IH]; intros line; simpl.
  - by exists [line ++ [10%N]].
  - destruct (c =? 10)%N.
    + destruct (IH []) as [before ->]. by exists ((line ++ [c]) :: before).
    + apply IH.
Qed.

Lemma empty_line_raises :
  json_loads [] = Err JSONDecodeError ->
  parse_chatml_str [] = Err JSONDecodeError.
Proof. intros Hloads. unfold parse_chatml_str. by rewrite Hloads. Qed.

(** C7.  The loader returns the parsed records without those that have no
    pair; construction raises when the loader returns no record, and a
    constructed mapper always has at least one record, each with at least
    one pair. *)
Theorem init_never_without_exemplars (args : InitArgs) :
  (forall seed_file samples,
     load_seed_qa_samples seed_file = Ok samples ->
     exists content parsed,
       open_read seed_file = Ok content /\
       Forall2 (fun line p => parse_chatml_str (strip line) = Ok p)
               (readlines content) parsed /\
       samples = filter (fun p => (0 < length p)%nat) parsed) /\
  (forall seed_file,
     arg_seed_file args = Some seed_file -> seed_file ≠ [] ->
     is_Ok (prepare_model args) ->
     load_seed_qa_samples seed_file = Ok [] ->
     init args = Err (ValueError "No QA data was parsed from the seed file!")) /\
  (forall self,
     init args = Ok self ->
     seed_qa_samples self ≠ [] /\
     Forall (fun qa_pairs => qa_pairs ≠ []) (seed_qa_samples self)).
Proof.
  split; [|split].
  - intros seed_file samples Hload. unfold load_seed_qa_samples in Hload.
    apply bind_Ok in Hload as (content & Hopen & Hload).
    apply load_lines_inv in Hload as (parsed & Hparsed & ->).
    by exists content, parsed.
  - intros seed_file Hfile Hne [key Hkey] Hload. unfold init.
    rewrite Hfile. destruct seed_file as [|c seed_file]; [done|].
    by rewrite Hkey, Hload.
  - intros self. unfold init.
    destruct (arg_seed_file args) as [[|c seed_file]|]; try discriminate.
    intros Hinit. apply bind_Ok in Hinit as (key & _ & Hinit).
    apply bind_Ok in Hinit as (samples & Hload & Hinit).
    destruct (decide (length samples = 0%nat)) as [|Hlen]; [discriminate|].
    apply bind_Ok in Hinit as (refs & _ & [= <-]). simpl. split.
    + intros ->. by apply Hlen.
    + unfold load_seed_qa_samples in Hload.
      apply bind_Ok in Hload as (content & _ & Hload).
      apply load_lines_inv in Hload as (parsed & _ & ->). simpl.
      apply Forall_forall. intros p Hp. apply list_elem_of_filter in Hp as [Hp _].
      intros ->. simpl in Hp. lia.
Qed.

(** C10.  When the JSON parser rejects the empty string, a seed file with a
    blank line cannot be loaded: loading raises, and it raises the parse
    error of the blank line unless an earlier line has already raised.  A
    file that ends with an empty line after its last record is such a
    file. *)
Theorem load_seed_blank_line_fails (seed_file content : pystr) :
  json_loads [] = Err JSONDecodeError ->
  open_read seed_file = Ok content ->
  (Exists (Forall (fun c => is_space c = true)) (readlines content) ->
   exists e, load_seed_qa_samples seed_file = Err e) /\
  (forall before line after,
     readlines content = before ++ line :: after ->
     Forall (fun c => is_space c = true) line ->
     Forall (fun l => is_Ok (parse_chatml_str (strip l))) before ->
     load_seed_qa_samples seed_file = Err JSONDecodeError) /\
  (forall text,
     content = text ++ [10; 10]%N ->
     exists e, load_seed_qa_samples seed_file = Err e).
Proof.
  intros Hloads Hopen.
  assert (Hblank : forall line, Forall (fun c => is_space c = true) line ->
                     parse_chatml_str (strip line) = Err JSONDecodeError).
  { intros line Hline. rewrite (strip_blank line Hline).
    by apply empty_line_raises. }
  assert (Hfail : Exists (Forall (fun c => is_space c = true)) (readlines content) ->
                  exists e, load_seed_qa_samples seed_file = Err e).
  { intros Hex. unfold load_seed_qa_samples. rewrite Hopen. simpl.
    apply load_lines_some_failure. eapply Exists_impl; [exact Hex|].
    intros line Hline. exists JSONDecodeError. by apply Hblank. }
  split; [exact Hfail|]. split.
  - intros before line after Hlines Hline Hbefore.
    unfold load_seed_qa_samples. rewrite Hopen. simpl. rewrite Hlines.
    apply load_lines_fails; [exact Hbefore | by apply Hblank].
  - intros text ->. apply Hfail. unfold readlines.
    destruct (readlines_from_trailing_blank text []) as [before ->].
    apply Exists_app. right. apply Exists_cons_hd.
    by apply Forall_cons.
Qed.

End seed_loader.

(** ** [process] of the mapper *)

Lemma SFcompare_swap (x y : float) :
  SFcompare y x = option_map CompOpp (SFcompare x y).
Proof.
  destruct x as [sx|sx| |sx mx ex], y as [sy|sy| |sy my ey]; simpl;
    try reflexivity; try (by destruct sx); try (by destruct sy);
    try (by destruct sx, sy).
  destruct sx, sy; try reflexivity; rewrite (Z.compare_antisym ey ex);
    destruct (ey ?= ex); simpl; try reflexivity;
    rewrite (Pos.compare_cont_antisym mx my Eq); simpl;
    by rewrite ?CompOpp_involutive.
Qed.

Lemma SFltb_not_SFleb (x y : float) : SFltb y x = true -> SFleb x y = false.
Proof.
  unfold SFltb, SFleb. rewrite (SFcompare_swap x y).
  by destruct (SFcompare x y) as [[]|].
Qed.

Section mapper_process.

Import GenerateInstructionMapper.
Context `{External}.

Lemma mapM_Ok_Forall2 {A B} (f : A -> result B) (l : list A) (k : list B) :
  mapM f l = Ok k <-> Forall2 (fun x y => f x = Ok y) l k.
Proof.
  revert k. induction l as [|x l IH]; intros k; simpl.
  - split; [intros [= <-]; constructor | by inversion 1].
  - split.
    + intros Hrun. apply bind_Ok in Hrun as (y & Hy & Hrun).
      apply bind_Ok in Hrun as (k' & Hk' & [= <-]).
      constructor; [exact Hy | by apply IH].
    + inversion 1 as [|? y ? k' Hy Hk']; subst.
      rewrite Hy. simpl. apply IH in Hk'. by rewrite Hk'.
Qed.

(** The loop unpacks every match, in order, and raises what the first
    failing unpacking raises. *)
Lemma parse_matches_spec (matches : list re_match)
    (acc : list (pystr * pystr)) (text : pystr) :
  parse_matches matches acc text =
  groups ← mapM unpack_pair matches;
  Ok (acc ++ List.map strip_pair groups,
      text ++ pairs_text (List.map strip_pair groups)).
Proof.
  revert acc text. induction matches as [|m matches IH]; intros acc text; simpl.
  - unfold pairs_text. simpl. by rewrite !app_nil_r.
  - destruct (unpack_pair m) as [[q a]|e]; simpl; [|reflexivity].
    rewrite IH. destruct (mapM unpack_pair matches) as [groups|e]; simpl;
      [|reflexivity].
    unfold pairs_text. simpl. f_equal. f_equal.
    + by rewrite <- app_assoc.
    + by rewrite <- !app_assoc.
Qed.

Lemma parse_response_spec (self : t) (response : pystr) :
  parse_response self response =
  matches ← re_findall (qa_extraction_pattern self) response;
  groups ← mapM unpack_pair matches;
  Ok (List.map strip_pair groups, pairs_text (List.map strip_pair groups)).
Proof.
  unfold parse_response.
  destruct (re_findall _ response) as [matches|e]; simpl; [|reflexivity].
  by rewrite parse_matches_spec.
Qed.

Lemma parse_response_Ok (self : t) (response : pystr)
    (pairs : list (pystr * pystr)) (text : pystr) :
  parse_response self response = Ok (pairs, text) ->
  exists matches groups,
    re_findall (qa_extraction_pattern self) response = Ok matches /\
    mapM unpack_pair matches = Ok groups /\
    pairs = List.map strip_pair groups /\ text = pairs_text pairs.
Proof.
  rewrite parse_response_spec. intros Hrun.
  apply bind_Ok in Hrun as (matches & Hmatches & Hrun).
  apply bind_Ok in Hrun as (groups & Hgroups & [= <- <-]).
  by exists matches, groups.
Qed.

(** With at least one pair the comparison text is not empty. *)
Lemma parse_response_nonempty (self : t) (response : pystr)
    (out_qa_pairs : list (pystr * pystr)) (response_str : pystr) :
  parse_response self response = Ok (out_qa_pairs, response_str) ->
  out_qa_pairs ≠ [] -> response_str ≠ [].
Proof.
  intros Hrun Hne.
  apply parse_response_Ok in Hrun as (_ & _ & _ & _ & _ & ->).
  destruct out_qa_pairs as [|[q a] pairs]; [done|]. unfold pairs_text. simpl.
  rewrite <- app_assoc. intros Hnil. apply app_eq_nil in Hnil as [_ Hnil].
  discriminate.
Qed.

Lemma append_messages_spec (pairs : list (pystr * pystr)) (message_list : list json) :
  append_messages pairs message_list = message_list ++ messages_of_pairs pairs.
Proof.
  revert message_list.
  induction pairs as [|[q a] pairs IH]; intros message_list; simpl.
  - by rewrite app_nil_r.
  - rewrite IH. by rewrite <- !app_assoc.
Qed.

(** C8.  When the extraction pattern finds no pair in the response,
    [process] raises nothing and returns the container with an empty
    messages array, the very text returned for a rejected generation. *)
Theorem process_without_pairs (self : t) (response : pystr) :
  infer self = Ok response ->
  re_findall (qa_extraction_pattern self) response = Ok [] ->
  process self = Ok (emitted self []) /\
  emitted self [] = {[ text_key self := empty_container_text ]}.
Proof.
  intros Hinfer Hnone. unfold process, parse_response.
  rewrite Hinfer. simpl. rewrite Hnone. simpl. split; reflexivity.
Qed.

End mapper_process.

(** * The theorems on sample inputs *)

Section instances.

Import AverageLineLengthFilter GenerateInstructionMapper Examples.

Lemma compute_stats_average_line_length_witness :
  exists samples' v,
    compute_stats defaults batch1 true = Ok samples' /\
    stats samples' !! 0%nat = Some (<[avg_line_length := v]> ∅) /\
    v = f3_5.
Proof.
  destruct (compute_stats_average_line_length defaults batch1 true 0
              (str "abcd" ++ [10%N] ++ str "ef") ∅)
    as (samples' & v & Hrun & Hstat & Hpos & _).
  - split; [simpl; lia|]. intros _. exists [∅; ∅]. split; [reflexivity | simpl; lia].
  - reflexivity.
  - reflexivity.
  - reflexivity.
  - left. reflexivity.
  - exists samples', v. split; [exact Hrun|]. split; [exact Hstat|].
    rewrite Hpos; [reflexivity | vm_compute; lia].
Defined.

Lemma compute_stats_memoized_witness :
  exists samples',
    compute_stats defaults batch2 false = Ok samples' /\
    stats samples' !! 0%nat = Some {[ avg_line_length := f1 ]} /\
    compute_stats defaults samples' false = Ok samples'.
Proof.
  assert (Hrun : exists samples', compute_stats defaults batch2 false = Ok samples')
    by (eexists; vm_compute; reflexivity).
  destruct Hrun as [samples' Hrun]. exists samples'.
  destruct (compute_stats_memoized defaults batch2 samples' false Hrun)
    as [Hkeep Hagain].
  split; [exact Hrun|]. split; [|exact Hagain].
  apply Hkeep; [reflexivity|]. exists f1. reflexivity.
Defined.

Lemma process_batched_agrees_with_single_witness :
  exists bs,
    AverageLineLengthFilter.process narrow (StatsList computed) = Ok (BoolList bs) /\
    Forall2 (fun stat b =>
               AverageLineLengthFilter.process narrow (StatsRecord stat) = Ok (Bool b))
            computed bs.
Proof.
  apply (process_batched_agrees_with_single narrow computed).
  repeat constructor; eexists; reflexivity.
Defined.

Lemma process_keeps_in_range_witness :
  exists bs,
    AverageLineLengthFilter.process narrow (StatsList computed) = Ok (BoolList bs) /\
    Forall2 (fun v b => b = true <-> kept narrow v) [f3_5; float_zero] bs /\
    Forall2 (fun stat b =>
               AverageLineLengthFilter.process narrow (StatsRecord stat) = Ok (Bool b))
            computed bs.
Proof.
  apply (process_keeps_in_range narrow computed [f3_5; float_zero]).
  repeat constructor.
Defined.

Lemma process_monotone_witness :
  AverageLineLengthFilter.process narrow (StatsRecord {[ avg_line_length := f3_5 ]})
    = Ok (Bool true) /\
  AverageLineLengthFilter.process wide (StatsRecord {[ avg_line_length := f3_5 ]})
    = Ok (Bool true).
Proof.
  assert (Hnarrow : AverageLineLengthFilter.process narrow
                      (StatsRecord {[ avg_line_length := f3_5 ]}) = Ok (Bool true))
    by reflexivity.
  split; [exact Hnarrow|].
  apply (process_monotone narrow wide); [simpl; lia | simpl; lia | exact Hnarrow].
Defined.

Lemma parse_chatml_str_pairs_witness :
  @parse_chatml_str (Concrete.env [] []) record1
  = Ok [(JStr question1, JStr answer1)].
Proof.
  apply (@parse_chatml_str_pairs (Concrete.env [] []) record1 messages1 eq_refl).
  - repeat constructor; eexists; reflexivity.
  - apply alternates_cons; [| |apply alternates_nil];
      eexists; repeat split; reflexivity.
Defined.

Lemma init_never_without_exemplars_witness :
  @init (Concrete.env (record0 ++ [10%N]) []) Concrete.args
  = Err (ValueError "No QA data was parsed from the seed file!").
Proof.
  apply (@init_never_without_exemplars (Concrete.env (record0 ++ [10%N]) [])
           Concrete.args) with (seed_file := str "seed.jsonl").
  - reflexivity.
  - discriminate.
  - eexists. reflexivity.
  - vm_compute. reflexivity.
Defined.

Lemma load_seed_blank_line_fails_witness :
  @load_seed_qa_samples (Concrete.env (record1 ++ [10; 10]%N) []) (str "seed.jsonl")
  = Err JSONDecodeError.
Proof.
  apply (@load_seed_blank_line_fails (Concrete.env (record1 ++ [10; 10]%N) [])
           (str "seed.jsonl") (record1 ++ [10; 10]%N) eq_refl eq_refl)
    with (before := [record1 ++ [10%N]]) (line := [10%N]) (after := []).
  - vm_compute. reflexivity.
  - repeat constructor.
  - repeat constructor. eexists. vm_compute. reflexivity.
Defined.

Lemma process_without_pairs_witness :
  @GenerateInstructionMapper.process (Concrete.env [] response0) mapper1
  = Ok {[ "text" := empty_container_text ]}.
Proof.
  destruct (@process_without_pairs (Concrete.env [] response0) mapper1 response0)
    as [Hrun Htext].
  - reflexivity.
  - vm_compute. reflexivity.
  - rewrite Hrun. f_equal.
Defined.

End instances.

(** * Further properties of the filter *)

Section compute_stats_further.

Import AverageLineLengthFilter.

(** What one iteration does to the context column: nothing, unless the
    record lacks the metric, the context is consulted and has no lines for
    the sample; then the split of the text is stored. *)
Lemma compute_stats_step_context (ctx : bool) (s s' : Samples) (i : nat) :
  compute_stats_step ctx s i = Ok s' ->
  exists stat, stats s !! i = Some stat /\
    (((is_Some (stat !! avg_line_length) \/ ctx = false \/
       is_Some (cached_lines true s i)) /\ context s' = context s) \/
     (stat !! avg_line_length = None /\ ctx = true /\
      cached_lines true s i = None /\
      exists T cs c,
        text s !! i = Some T /\ context s = Some cs /\ cs !! i = Some c /\
        context s' = Some (<[i := <[lines_key := splitlines T]> c]> cs))).
Proof.
  unfold compute_stats_step. intros Hstep.
  apply bind_Ok in Hstep as (stat & Hstat & Hstep).
  apply list_getitem_Ok in Hstat. exists stat. split; [exact Hstat|].
  destruct (decide (is_Some (stat !! avg_line_length))) as [Hin|Hnin].
  { left. split; [by left | congruence]. }
  apply bind_Ok in Hstep as ([lines s1] & Hlines & Hstep).
  apply bind_Ok in Hstep as (v & _ & [= <-]). simpl.
  unfold lines_at in Hlines.
  apply bind_Ok in Hlines as (cached & Hcached & Hlines).
  destruct ctx.
  - apply bind_Ok in Hcached as (c & Hc & [= <-]).
    unfold context_at in Hc. destruct (context s) as [cs|] eqn:Hcs; [|discriminate].
    apply list_getitem_Ok in Hc.
    assert (Hcl : cached_lines true s i = c !! lines_key).
    { unfold cached_lines. rewrite Hcs. simpl. by rewrite Hc. }
    destruct (c !! lines_key) as [l|] eqn:Hl.
    + injection Hlines as <- <-. left. split; [|done].
      right. right. exists l. unfold cached_lines in Hcl. by rewrite Hcs in Hcl.
    + apply bind_Ok in Hlines as (T & HT & Hlines). apply list_getitem_Ok in HT.
      apply bind_Ok in Hlines as (c' & Hc' & [= <- <-]).
      apply list_getitem_Ok in Hc'. rewrite Hc in Hc'. injection Hc' as <-.
      right. split; [by apply eq_None_not_Some|]. split; [reflexivity|].
      split; [unfold cached_lines in Hcl; by rewrite Hcs in Hcl|].
      by exists T, cs, c.
  - injection Hcached as <-.
    apply bind_Ok in Hlines as (T & _ & [= <- <-]). left. split; [|done].
    right. by left.
Qed.

(** Cached lines are never replaced, and the context is left alone when it
    is not consulted. *)
Lemma compute_stats_step_cache_kept (ctx : bool) (s s' : Samples) (i j : nat)
    (l : list pystr) :
  compute_stats_step ctx s i = Ok s' ->
  (ctx = false -> context s' = context s) /\
  (cached_lines true s j = Some l -> cached_lines true s' j = Some l).
Proof.
  intros Hstep.
  destruct (compute_stats_step_context _ _ _ _ Hstep)
    as (stat & _ & [[_ Hsame] | (_ & -> & Hnone & T & cs & c & _ & Hcs & Hc & Hcs')]).
  - split; [done|]. unfold cached_lines. by rewrite Hsame.
  - split; [done|]. unfold cached_lines in *. rewrite Hcs', Hcs in *. simpl in *.
    destruct (decide (j = i)) as [->|Hne].
    + rewrite Hc in Hnone. simpl in Hnone. rewrite Hc. simpl. congruence.
    + by rewrite list_lookup_insert_ne.
Qed.

Lemma compute_stats_loop_context (ctx : bool) (idx : list nat) (s s' : Samples) :
  compute_stats_loop ctx s idx = Ok s' ->
  (ctx = false -> context s' = context s) /\
  (forall j l, cached_lines true s j = Some l -> cached_lines true s' j = Some l) /\
  (ctx = true ->
   forall j stat T, j ∈ idx -> stats s !! j = Some stat ->
     stat !! avg_line_length = None -> text s !! j = Some T ->
     cached_lines true s j = None ->
     cached_lines true s' j = Some (splitlines T)).
Proof.
  revert s. induction idx as [|i idx IH]; intros s; simpl.
  { intros [= <-]. repeat apply conj; auto. intros _ j stat T Hj.
    by apply elem_of_nil in Hj. }
  intros Hloop. apply bind_Ok in Hloop as (s1 & Hstep & Hloop).
  destruct (IH _ Hloop) as (Hoff & Hkept & Hnew).
  pose proof (compute_stats_step_frame _ _ _ _ Hstep)
    as (Htext & _ & Hother & Hcached & _).
  split; [|split].
  - intros Hctx. rewrite (Hoff Hctx).
    by apply (compute_stats_step_cache_kept ctx s s1 i 0 [] Hstep).
  - intros j l Hl. apply Hkept.
    by apply (compute_stats_step_cache_kept ctx s s1 i j l Hstep).
  - intros -> j stat T Hj Hstat Hnone HT Hcache.
    change (cached_lines true s j = None) in Hcache.
    destruct (decide (j = i)) as [->|Hne].
    + apply Hkept.
      destruct (compute_stats_step_context _ _ _ _ Hstep)
        as (stat' & Hstat' &
            [[Hcase _] | (_ & _ & _ & T' & cs & c & HT' & Hcs & Hc & Hcs')]).
      * rewrite Hstat in Hstat'. injection Hstat' as <-.
        destruct Hcase as [[x Hx] | [? | [x Hx]]]; congruence.
      * unfold cached_lines. rewrite Hcs'. simpl.
        rewrite list_lookup_insert_eq by (by eapply lookup_lt_Some). simpl.
        rewrite lookup_insert_eq. congruence.
    + apply elem_of_cons in Hj as [?|Hj]; [done|].
      apply (Hnew eq_refl j stat T Hj); [by rewrite Hother | done | congruence |].
      by rewrite Hcached.
Qed.

Lemma compute_stats_loop_complete (ctx : bool) (s s' : Samples) :
  compute_stats_loop ctx s (seq 0 (length (stats s))) = Ok s' ->
  text s' = text s /\
  length (stats s') = length (stats s) /\
  Forall (fun stat => is_Some (stat !! avg_line_length)) (stats s').
Proof.
  intros Hrun.
  destruct (compute_stats_loop_inv ctx _ _ _ Hrun) as (Htext & Hlen & Hkeep & Hnew).
  split; [exact Htext|]. split; [exact Hlen|].
  apply Forall_lookup. intros j stat' Hj.
  assert (Hlt : (j < length (stats s))%nat)
    by (rewrite <- Hlen; by eapply lookup_lt_Some).
  destruct (lookup_lt_is_Some_2 (stats s) j Hlt) as [stat Hstat].
  destruct (stat !! avg_line_length) as [x|] eqn:Hx.
  - rewrite (Hkeep j stat Hstat) in Hj by (right; by rewrite Hx).
    injection Hj as <-. by rewrite Hx.
  - destruct (Hnew j stat) as (v & Hv & _); [apply elem_of_seq; lia | done | done |].
    rewrite Hv in Hj. injection Hj as <-. rewrite lookup_insert_eq. by eexists.
Qed.

(** X1.  When [compute_stats] returns, the text column and the number of
    stats records are unchanged and every stats record has the metric. *)
Theorem compute_stats_completes (self : t) (s s' : Samples) (ctx : bool) :
  compute_stats self s ctx = Ok s' ->
  text s' = text s /\
  length (stats s') = length (stats s) /\
  Forall (fun stat => is_Some (stat !! avg_line_length)) (stats s').
Proof. apply compute_stats_loop_complete. Qed.

(** X2.  [compute_stats] touches no other metric: in every stats record,
    every key other than avg_line_length keeps its value (or its
    absence). *)
Theorem compute_stats_keeps_other_metrics
    (self : t) (s s' : Samples) (ctx : bool) (i : nat)
    (stat : gmap string float) :
  compute_stats self s ctx = Ok s' ->
  stats s !! i = Some stat ->
  exists stat',
    stats s' !! i = Some stat' /\
    forall k, k ≠ avg_line_length -> stat' !! k = stat !! k.
Proof.
  unfold compute_stats. intros Hrun Hstat.
  destruct (compute_stats_loop_inv ctx _ _ _ Hrun) as (_ & _ & Hkeep & Hnew).
  destruct (stat !! avg_line_length) as [x|] eqn:Hx.
  - exists stat. split; [|done]. apply Hkeep; [done|]. right. by rewrite Hx.
  - destruct (Hnew i stat) as (v & Hv & _); [|done|done|].
    { apply elem_of_seq. apply lookup_lt_Some in Hstat. lia. }
    eexists. split; [exact Hv|]. intros k Hk. by rewrite lookup_insert_ne.
Qed.

(** X3.  On an aligned batch, [compute_stats] followed by the batched
    [process] of any configuration raises nothing and returns one boolean
    per record. *)
Theorem process_after_compute_stats (self self' : t) (s : Samples) (ctx : bool) :
  aligned ctx s ->
  exists s' bs,
    compute_stats self s ctx = Ok s' /\
    process self' (StatsList (stats s')) = Ok (BoolList bs) /\
    length bs = length (stats s).
Proof.
  intros Hal.
  destruct (compute_stats_loop_total ctx (seq 0 (length (stats s))) s Hal)
    as [s' Hrun].
  { apply Forall_forall. intros j Hj. apply elem_of_seq in Hj. lia. }
  destruct (compute_stats_loop_complete ctx s s' Hrun) as (_ & Hlen & Hall).
  destruct (process_total self' (stats s') Hall) as (bs & Hds & Hbs & _).
  exists s', bs. split; [exact Hrun|]. split; [exact Hbs|].
  rewrite <- Hlen. symmetry. by eapply Forall2_length.
Qed.

(** X4.  A record without the metric makes [process] raise [KeyError]: in
    single-sample mode for that record, in batched mode for the whole
    batch, whatever the other records hold. *)
Theorem process_missing_metric (self : t) (l : list (gmap string float)) :
  Exists (fun stat => stat !! avg_line_length = None) l ->
  process self (StatsList l) = Err KeyError /\
  Exists (fun stat => process self (StatsRecord stat) = Err KeyError) l.
Proof.
  intros Hex.
  assert (Hrec : forall stat, stat !! avg_line_length = None ->
                   in_range self stat = Err KeyError).
  { intros stat Hnone. unfold in_range, dict_getitem. by rewrite Hnone. }
  split.
  - simpl. assert (Hloop : forall acc, process_loop self l acc = Err KeyError).
    { induction Hex as [stat l Hnone | stat l _ IH]; intros acc; simpl.
      - by rewrite (Hrec stat Hnone).
      - unfold in_range, dict_getitem.
        destruct (stat !! avg_line_length); [simpl | done].
        by destruct (_ && _). }
    by rewrite Hloop.
  - eapply Exists_impl; [exact Hex|]. intros stat Hnone. simpl.
    by rewrite (Hrec stat Hnone).
Qed.

(** X5.  The context column: it is unchanged when the context is not
    consulted; lines already cached are never replaced; and when the
    context is consulted, every sample that lacked both the metric and
    cached lines has the split of its text cached on return. *)
Theorem compute_stats_context (self : t) (s s' : Samples) (ctx : bool) :
  compute_stats self s ctx = Ok s' ->
  (ctx = false -> context s' = context s) /\
  (forall i l, cached_lines true s i = Some l -> cached_lines true s' i = Some l) /\
  (ctx = true ->
   forall i stat T, stats s !! i = Some stat ->
     stat !! avg_line_length = None -> text s !! i = Some T ->
     cached_lines true s i = None ->
     cached_lines true s' i = Some (splitlines T)).
Proof.
  unfold compute_stats. intros Hrun.
  destruct (compute_stats_loop_context ctx _ _ _ Hrun) as (Hoff & Hkept & Hnew).
  split; [exact Hoff|]. split; [exact Hkept|].
  intros Hctx i stat T Hstat Hnone HT Hcache.
  apply (Hnew Hctx i stat T); try done.
  apply elem_of_seq. apply lookup_lt_Some in Hstat. lia.
Qed.

End compute_stats_further.

(** ** The quotient of two lengths *)

Lemma iter_pos_invariant {A} (P : A -> Prop) (f : A -> A) :
  (forall x, P x -> P (f x)) ->
  forall (p : positive) (x : A), P x -> P (SpecFloat.iter_pos f p x).
Proof.
  intros Hf. induction p as [p IH|p IH|]; intros x Hx; simpl; auto.
Qed.

Lemma shr_1_nonneg (mrs : shr_record) : 0 <= shr_m mrs -> 0 <= shr_m (shr_1 mrs).
Proof.
  destruct mrs as [m r s]. simpl. destruct m as [|[p|p|]|p]; simpl; lia.
Qed.

Lemma shr_fexp_nonneg (m e : Z) (l : location) :
  0 <= m -> 0 <= shr_m (fst (shr_fexp prec emax m e l)).
Proof.
  intros Hm. unfold shr_fexp, shr.
  assert (Hloc : 0 <= shr_m (shr_record_of_loc m l))
    by (destruct l as [|[]]; simpl; lia).
  destruct (_ - e) as [|p|p]; simpl; try exact Hloc.
  apply (iter_pos_invariant (fun mrs => 0 <= shr_m mrs)); [|exact Hloc].
  apply shr_1_nonneg.
Qed.

Lemma round_nearest_even_nonneg (m : Z) (l : location) :
  0 <= m -> 0 <= round_nearest_even m l.
Proof.
  intros Hm. destruct l as [|[]]; simpl; try lia. destruct (Z.even m); lia.
Qed.

(** Rounding a non-negative mantissa gives a zero, a finite number or an
    infinity of the requested sign, never a NaN. *)
Lemma binary_round_aux_sign (sx : bool) (mx ex : Z) (lx : location) :
  0 <= mx ->
  match binary_round_aux prec emax sx mx ex lx with
  | S754_zero s | S754_infinity s | S754_finite s _ _ => s = sx
  | S754_nan => False
  end.
Proof.
  intros Hm. unfold binary_round_aux.
  pose proof (shr_fexp_nonneg mx ex lx Hm) as H1.
  destruct (shr_fexp prec emax mx ex lx) as [mrs' e']. simpl in H1.
  pose proof (shr_fexp_nonneg _ e' loc_Exact
                (round_nearest_even_nonneg _ (loc_of_shr_record mrs') H1)) as H2.
  destruct (shr_fexp prec emax _ e' loc_Exact) as [mrs'' e'']. simpl in H2.
  destruct (shr_m mrs'') as [|p|p]; [reflexivity | | lia].
  by destruct (e'' <=? emax - prec).
Qed.

Lemma true_quotient_sign (a b : Z) :
  0 <= a -> 0 < b ->
  match true_quotient a b with
  | S754_zero s | S754_infinity s | S754_finite s _ _ => s = false
  | S754_nan => False
  end.
Proof.
  intros Ha Hb. unfold true_quotient.
  destruct a as [|a|a]; [|clear Ha|lia].
  { simpl. destruct b; simpl; try reflexivity; lia. }
  destruct b as [|b|b]; try lia. simpl.
  unfold SFdiv_core_binary.
  set (e' := Z.min _ _). set (m' := match 0 - 0 - e' with 0 => _ | _ => _ end).
  assert (Hm' : 0 <= m').
  { unfold m'. destruct (0 - 0 - e') as [|p|p]; try lia.
    rewrite Z.shiftl_mul_pow2 by lia. apply Z.mul_nonneg_nonneg; [lia|].
    apply Z.pow_nonneg. lia. }
  assert (Hq : 0 <= fst (Z.div_eucl m' (Z.pos b))).
  { change (0 <= m' / Z.pos b). apply Z.div_pos; lia. }
  destruct (Z.div_eucl m' (Z.pos b)) as [q r]. simpl in Hq.
  apply (binary_round_aux_sign false q e' _ Hq).
Qed.

(** The quotient of a length by a positive length is a number that is not
    negative. *)
Lemma true_quotient_nonneg (a b : Z) :
  0 <= a -> 0 < b -> Zle_float 0 (true_quotient a b).
Proof.
  intros Ha Hb. pose proof (true_quotient_sign a b Ha Hb) as Hsign.
  destruct (true_quotient a b) as [s|s| |s m e]; simpl; try done.
  subst s. unfold finite_value. simpl.
  apply Qmult_le_0_compat; [done|]. by apply Qpower_0_le.
Qed.

Lemma splitlines_from_no_break (line s : pystr) :
  Forall (fun c => is_linebreak c = false) s ->
  splitlines_from line s =
  match line ++ s with [] => [] | _ => [line ++ s] end.
Proof.
  intros Hs. revert line. induction Hs as [|c s Hc _ IH]; intros line; simpl.
  - by rewrite app_nil_r.
  - rewrite Hc, IH, <- app_assoc. reflexivity.
Qed.

Section compute_stats_edges.

Import AverageLineLengthFilter.

Lemma compute_stats_loop_app (ctx : bool) (s : Samples) (pre post : list nat) :
  compute_stats_loop ctx s (pre ++ post) =
  compute_stats_loop ctx s pre ≫= fun s1 => compute_stats_loop ctx s1 post.
Proof.
  revert s. induction pre as [|i pre IH]; intros s; simpl; [reflexivity|].
  destruct (compute_stats_step ctx s i) as [s1|e]; simpl; [apply IH | reflexivity].
Qed.

(** The loop raises what the first record without the metric raises. *)
Lemma compute_stats_first_missing (self : t) (ctx : bool) (s : Samples)
    (i : nat) (e : exn) :
  (i < length (stats s))%nat ->
  (forall j stat, (j < i)%nat -> stats s !! j = Some stat ->
     is_Some (stat !! avg_line_length)) ->
  compute_stats_step ctx s i = Err e ->
  compute_stats self s ctx = Err e.
Proof.
  intros Hi Hbefore Hstep. unfold compute_stats.
  replace (length (stats s)) with (i + (length (stats s) - i))%nat by lia.
  rewrite seq_app, compute_stats_loop_app, compute_stats_loop_noop.
  - destruct (length (stats s) - i)%nat as [|n] eqn:Hn; [lia|].
    simpl. by rewrite Hstep.
  - apply Forall_forall. intros j Hj. apply elem_of_seq in Hj.
    destruct (lookup_lt_is_Some_2 (stats s) j ltac:(lia)) as [stat Hstat].
    exists stat. split; [exact Hstat|]. apply (Hbefore j); [lia | exact Hstat].
Qed.

Lemma first_without_metric (l : list (gmap string float)) :
  Exists (fun stat => stat !! avg_line_length = None) l ->
  exists i stat,
    l !! i = Some stat /\ stat !! avg_line_length = None /\
    forall j stat', (j < i)%nat -> l !! j = Some stat' ->
      is_Some (stat' !! avg_line_length).
Proof.
  induction l as [|stat0 l IH]; intros Hex; [by apply Exists_nil in Hex|].
  destruct (stat0 !! avg_line_length) as [x|] eqn:Hx.
  - apply Exists_cons in Hex as [Hhd|Htl]; [congruence|].
    destruct (IH Htl) as (i & stat & Hi & Hnone & Hbefore).
    exists (S i), stat. split; [exact Hi|]. split; [exact Hnone|].
    intros [|j] stat' Hj Hstat'; simpl in Hstat'.
    + injection Hstat' as <-. by rewrite Hx.
    + apply (Hbefore j); [lia | exact Hstat'].
  - exists 0%nat, stat0. split; [reflexivity|]. split; [exact Hx|]. lia.
Qed.

(** X6.  With the context switched on and no context column in the batch,
    [compute_stats] returns the batch unchanged if every record has the
    metric already, and raises [KeyError] as soon as one record lacks it. *)
Theorem compute_stats_without_context_column (self : t) (s : Samples) :
  context s = None ->
  (Forall (fun stat => is_Some (stat !! avg_line_length)) (stats s) ->
   compute_stats self s true = Ok s) /\
  (Exists (fun stat => stat !! avg_line_length = None) (stats s) ->
   compute_stats self s true = Err KeyError).
Proof.
  intros Hctx. split.
  - intros Hall. apply compute_stats_loop_noop. apply Forall_forall.
    intros j Hj. apply elem_of_seq in Hj.
    destruct (lookup_lt_is_Some_2 (stats s) j ltac:(lia)) as [stat Hstat].
    exists stat. split; [exact Hstat|].
    by apply (Forall_lookup_1 _ _ _ _ Hall Hstat).
  - intros Hex.
    destruct (first_without_metric _ Hex) as (i & stat & Hi & Hnone & Hbefore).
    apply (compute_stats_first_missing self true s i);
      [by eapply lookup_lt_Some | exact Hbefore |].
    unfold compute_stats_step, list_getitem. rewrite Hi. simpl.
    destruct (decide _) as [[x Hx]|_]; [congruence|].
    unfold lines_at, context_at. by rewrite Hctx.
Qed.

(** X7.  With the context switched off, a text column that has no entry for
    the first record without the metric makes [compute_stats] raise
    [IndexError]. *)
Theorem compute_stats_short_text_column (self : t) (s : Samples) (i : nat)
    (stat : gmap string float) :
  (forall j stat', (j < i)%nat -> stats s !! j = Some stat' ->
     is_Some (stat' !! avg_line_length)) ->
  stats s !! i = Some stat ->
  stat !! avg_line_length = None ->
  text s !! i = None ->
  compute_stats self s false = Err IndexError.
Proof.
  intros Hbefore Hi Hnone Htext.
  apply (compute_stats_first_missing self false s i);
    [by eapply lookup_lt_Some | exact Hbefore |].
  unfold compute_stats_step, list_getitem. rewrite Hi. simpl.
  destruct (decide _) as [[x Hx]|_]; [congruence|].
  unfold lines_at, list_getitem. simpl. by rewrite Htext.
Qed.

(** What is stored for a record without the metric, given its text. *)
Lemma compute_stats_stored (self : t) (s : Samples) (ctx : bool) (i : nat)
    (T : pystr) (stat : gmap string float) :
  aligned ctx s ->
  text s !! i = Some T ->
  stats s !! i = Some stat ->
  stat !! avg_line_length = None ->
  exists s',
    compute_stats self s ctx = Ok s' /\
    length (stats s') = length (stats s) /\
    Forall (fun stat => is_Some (stat !! avg_line_length)) (stats s') /\
    stats s' !! i =
      Some (<[avg_line_length := average T (lines_for ctx s i T)]> stat).
Proof.
  intros Hal HT Hstat Hnone. unfold compute_stats.
  assert (Hi : (i < length (stats s))%nat) by by eapply lookup_lt_Some.
  destruct (compute_stats_loop_total ctx (seq 0 (length (stats s))) s Hal)
    as [s' Hrun].
  { apply Forall_forall. intros j Hj. apply elem_of_seq in Hj. lia. }
  destruct (compute_stats_loop_complete ctx s s' Hrun) as (_ & Hlen & Hall).
  destruct (compute_stats_loop_inv ctx _ _ _ Hrun) as (_ & _ & _ & Hnew).
  destruct (Hnew i stat) as (v & Hv & Hval); [apply elem_of_seq; lia | done | done |].
  exists s'. repeat split; try done. by rewrite <- (Hval T HT).
Qed.

(** X8.  An empty text is dropped by every configuration with a positive
    [min_len]: after [compute_stats], the batched [process] returns [False]
    at the position of a sample whose text is empty (its metric not stored
    before, its cached lines, if any, being those of the empty text). *)
Theorem empty_text_is_dropped (self self' : t) (s : Samples) (ctx : bool)
    (i : nat) (stat : gmap string float) :
  aligned ctx s ->
  text s !! i = Some [] ->
  stats s !! i = Some stat ->
  stat !! avg_line_length = None ->
  cached_lines ctx s i = None \/ cached_lines ctx s i = Some [] ->
  0 < min_len self' ->
  exists s' bs,
    compute_stats self s ctx = Ok s' /\
    process self' (StatsList (stats s')) = Ok (BoolList bs) /\
    bs !! i = Some false.
Proof.
  intros Hal HT Hstat Hnone Hcache Hmin.
  destruct (compute_stats_stored self s ctx i [] stat Hal HT Hstat Hnone)
    as (s' & Hrun & _ & Hall & Hv).
  assert (Hlines : lines_for ctx s i [] = []).
  { unfold lines_for. by destruct Hcache as [-> | ->]. }
  rewrite Hlines in Hv. change (average [] []) with float_zero in Hv.
  destruct (process_total self' (stats s') Hall) as (bs & Hds & Hbs & _).
  exists s', bs. split; [exact Hrun|]. split; [exact Hbs|].
  destruct (Forall2_lookup_l _ _ _ _ _ Hds Hv) as (b & Hb & Hin).
  rewrite Hb. f_equal. apply in_range_Ok in Hin as (v & Hlook & ->).
  rewrite lookup_insert_eq in Hlook. injection Hlook as <-.
  unfold int_le_float, float_zero. simpl.
  destruct (min_len self'); [lia | reflexivity | lia].
Qed.

(** X9.  A non-empty text without a line-break character counts as one
    line: the metric stored for it is its length divided by one. *)
Theorem single_line_text_metric (self : t) (s : Samples) (ctx : bool)
    (i : nat) (T : pystr) (stat : gmap string float) :
  aligned ctx s ->
  text s !! i = Some T ->
  stats s !! i = Some stat ->
  stat !! avg_line_length = None ->
  cached_lines ctx s i = None \/ cached_lines ctx s i = Some (splitlines T) ->
  T ≠ [] ->
  Forall (fun c => is_linebreak c = false) T ->
  splitlines T = [T] /\
  exists s',
    compute_stats self s ctx = Ok s' /\
    stats s' !! i =
      Some (<[avg_line_length := true_quotient (Z.of_nat (length T)) 1]> stat).
Proof.
  intros Hal HT Hstat Hnone Hcache Hne Hbreak.
  assert (Hsplit : splitlines T = [T]).
  { unfold splitlines. rewrite (splitlines_from_no_break [] T Hbreak). simpl.
    by destruct T. }
  split; [exact Hsplit|].
  destruct (compute_stats_stored self s ctx i T stat Hal HT Hstat Hnone)
    as (s' & Hrun & _ & _ & Hv).
  exists s'. split; [exact Hrun|]. rewrite Hv. do 2 f_equal.
  unfold lines_for. destruct Hcache as [-> | ->]; simpl; by rewrite Hsplit.
Qed.

(** X10.  The metric [compute_stats] stores is never a NaN and never
    negative, whatever lines the context had cached. *)
Theorem stored_metric_is_nonnegative (self : t) (s : Samples) (ctx : bool)
    (i : nat) (T : pystr) (stat : gmap string float) :
  aligned ctx s ->
  text s !! i = Some T ->
  stats s !! i = Some stat ->
  stat !! avg_line_length = None ->
  exists s' v,
    compute_stats self s ctx = Ok s' /\
    stats s' !! i = Some (<[avg_line_length := v]> stat) /\
    Zle_float 0 v.
Proof.
  intros Hal HT Hstat Hnone.
  destruct (compute_stats_stored self s ctx i T stat Hal HT Hstat Hnone)
    as (s' & Hrun & _ & _ & Hv).
  exists s', (average T (lines_for ctx s i T)).
  split; [exact Hrun|]. split; [exact Hv|].
  unfold average. destruct (decide _) as [Hlen|_]; [|simpl; lia].
  apply true_quotient_nonneg; lia.
Qed.

End compute_stats_edges.

(** * Further properties of the mapper *)

Section seed_parser_further.

Import GenerateInstructionMapper.
Context `{External}.

Lemma parse_messages_well_formed (ms : list json) (u a0 : json)
    (acc r : list (json * json)) :
  parse_messages ms u a0 acc = Ok r -> Forall well_formed ms.
Proof.
  revert u a0 acc. induction ms as [|m ms IH]; intros u a0 acc; simpl; [done|].
  intros Hrun. apply bind_Ok in Hrun as (role & Hrole & Hrun).
  apply bind_Ok in Hrun as (content & Hcontent & Hrun).
  constructor; [split; by eexists|].
  destruct (eq_str role (str "user")); [by eapply IH|].
  destruct (eq_str role (str "assistant")); by eapply IH.
Qed.

Lemma assistant_turns_length (before rest : list json) :
  length (assistant_turns before rest)
  = length (List.filter (has_role "assistant") rest).
Proof.
  revert before. induction rest as [|m rest IH]; intros before; simpl; [done|].
  rewrite length_app, IH. by destruct (has_role "assistant" m).
Qed.

(** X11.  The number of pairs of a record is the number of its assistant
    messages. *)
Theorem parse_chatml_str_pair_count (input_str : pystr) (messages : list json)
    (qa_pairs : list (json * json)) :
  messages_of input_str = Ok messages ->
  parse_chatml_str input_str = Ok qa_pairs ->
  length qa_pairs = length (List.filter (has_role "assistant") messages).
Proof.
  intros Hms. rewrite parse_chatml_str_messages, Hms. simpl. intros Hrun.
  pose proof (parse_messages_well_formed _ _ _ _ _ Hrun) as Hwf.
  pose proof (parse_messages_spec messages [] JNull [] Hwf) as Hspec.
  change (last_user []) with JNull in Hspec. rewrite Hspec in Hrun.
  injection Hrun as <-. simpl. rewrite length_map. apply assistant_turns_length.
Qed.

Lemma parse_messages_filter (ms : list json) (u a0 : json)
    (acc : list (json * json)) :
  Forall well_formed ms ->
  parse_messages
    (List.filter (fun m => has_role "user" m || has_role "assistant" m) ms)
    u a0 acc
  = parse_messages ms u a0 acc.
Proof.
  intros Hwf. revert u a0 acc.
  induction Hwf as [|m ms [[role Hrole] [content Hcontent]] _ IH];
    intros u a0 acc; simpl; [reflexivity|].
  unfold has_role at 1 2. rewrite Hrole, Hcontent. simpl.
  destruct (eq_str role (str "user")) eqn:Hu; simpl.
  { rewrite Hrole, Hcontent. simpl. rewrite Hu. apply IH. }
  destruct (eq_str role (str "assistant")) eqn:Ha; simpl; [|apply IH].
  rewrite Hrole, Hcontent. simpl. rewrite Hu, Ha. apply IH.
Qed.

(** X12.  Messages whose role is neither user nor assistant do not count:
    a record and the record without these messages yield the same pairs. *)
Theorem parse_chatml_str_ignores_other_roles
    (input_str input_str' : pystr) (messages : list json) :
  messages_of input_str = Ok messages ->
  messages_of input_str' =
    Ok (List.filter (fun m => has_role "user" m || has_role "assistant" m)
                    messages) ->
  Forall well_formed messages ->
  parse_chatml_str input_str' = parse_chatml_str input_str.
Proof.
  intros Hms Hms' Hwf. rewrite !parse_chatml_str_messages, Hms, Hms'. simpl.
  by apply parse_messages_filter.
Qed.

Lemma parse_messages_lacks_field (ms : list json) (u a0 : json)
    (acc : list (json * json)) :
  Forall is_object ms -> Exists lacks_field ms ->
  parse_messages ms u a0 acc = Err KeyError.
Proof.
  intros Hobj Hex. revert u a0 acc.
  induction Hex as [m ms (members & -> & Hlack) | m ms _ IH]; intros u a0 acc; simpl.
  - destruct (assoc (str "role") members) as [role|] eqn:Hrole; [|reflexivity].
    destruct Hlack as [? | ->]; [congruence | reflexivity].
  - apply Forall_cons in Hobj as [[members ->] Hobj]. simpl.
    destruct (assoc (str "role") members) as [role|]; [simpl | reflexivity].
    destruct (assoc (str "content") members) as [content|]; [simpl | reflexivity].
    destruct (eq_str role (str "user")); [by apply IH|].
    destruct (eq_str role (str "assistant")); by apply IH.
Qed.

(** X13.  Malformed records are errors, not skipped records: a record that
    is not a JSON object raises [TypeError], an object without a messages
    member raises [KeyError], and so does a list of message objects one of
    which lacks its role or its content. *)
Theorem parse_chatml_str_malformed (input_str : pystr) (data : json) :
  json_loads input_str = Ok data ->
  ((forall members, data ≠ JObj members) ->
   parse_chatml_str input_str = Err TypeError) /\
  (forall members, data = JObj members ->
     assoc (str "messages") members = None ->
     parse_chatml_str input_str = Err KeyError) /\
  (forall members ms, data = JObj members ->
     assoc (str "messages") members = Some (JArr ms) ->
     Forall is_object ms -> Exists lacks_field ms ->
     parse_chatml_str input_str = Err KeyError).
Proof.
  intros Hloads. unfold parse_chatml_str. rewrite Hloads. simpl.
  split; [|split].
  - intros Hnot. destruct data; try reflexivity. by destruct (Hnot members).
  - intros members -> Hnone. simpl. by rewrite Hnone.
  - intros members ms -> Hsome Hobj Hex. simpl. rewrite Hsome. simpl.
    by apply parse_messages_lacks_field.
Qed.

End seed_parser_further.

Section seed_loader_further.

Import GenerateInstructionMapper.
Context `{External}.

Lemma load_lines_spec (lines : list pystr) (parsed acc : list (list (json * json))) :
  Forall2 (fun line p => parse_chatml_str (strip line) = Ok p) lines parsed ->
  load_lines lines acc = Ok (acc ++ filter (fun p => (0 < length p)%nat) parsed).
Proof.
  intros Hparsed. revert acc.
  induction Hparsed as [|line p lines parsed Hp _ IH]; intros acc; simpl.
  - by rewrite app_nil_r.
  - rewrite Hp. simpl. destruct (decide (0 < length p)%nat).
    + rewrite IH, filter_cons_True by done. by rewrite <- app_assoc.
    + rewrite IH. by rewrite filter_cons_False.
Qed.

Lemma readlines_from_app (a b line : pystr) :
  readlines_from line (a ++ [10%N] ++ b)
  = readlines_from line (a ++ [10%N]) ++ readlines_from [] b.
Proof.
  revert line. induction a as [|c a IH]; intros line; simpl; [reflexivity|].
  destruct (c =? 10)%N; [|apply IH]. by rewrite IH.
Qed.

(** X14.  The first line that fails to parse ends the loading with its own
    exception, whatever the lines before it yielded and whatever follows. *)
Theorem load_seed_first_failure (seed_file content : pystr)
    (before after : list pystr) (line : pystr) (e : exn) :
  open_read seed_file = Ok content ->
  readlines content = before ++ line :: after ->
  Forall (fun l => is_Ok (parse_chatml_str (strip l))) before ->
  parse_chatml_str (strip line) = Err e ->
  load_seed_qa_samples seed_file = Err e.
Proof.
  intros Hopen Hlines Hbefore Hline. unfold load_seed_qa_samples.
  rewrite Hopen. simpl. rewrite Hlines. by apply load_lines_fails.
Qed.

(** X15.  Loading is compositional: when a first file is empty or ends with
    a line feed, the corpus of the two files put end to end is the corpus
    of the first followed by the corpus of the second. *)
Theorem load_seed_concat (f1 f2 f : pystr) (c1 c2 : pystr)
    (s1 s2 : list (list (json * json))) :
  open_read f1 = Ok c1 -> open_read f2 = Ok c2 ->
  open_read f = Ok (c1 ++ c2) ->
  c1 = [] \/ (exists a, c1 = a ++ [10%N]) ->
  load_seed_qa_samples f1 = Ok s1 ->
  load_seed_qa_samples f2 = Ok s2 ->
  load_seed_qa_samples f = Ok (s1 ++ s2).
Proof.
  intros H1 H2 Hf Hend. unfold load_seed_qa_samples.
  rewrite H1, H2, Hf. simpl. intros Hs1 Hs2.
  apply load_lines_inv in Hs1 as (p1 & Hp1 & ->).
  apply load_lines_inv in Hs2 as (p2 & Hp2 & ->). simpl.
  assert (Hlines : readlines (c1 ++ c2) = readlines c1 ++ readlines c2).
  { destruct Hend as [-> | [a ->]]; [reflexivity|].
    unfold readlines. rewrite <- app_assoc. apply readlines_from_app. }
  rewrite Hlines, <- filter_app.
  apply (load_lines_spec _ (p1 ++ p2) []). by apply Forall2_app.
Qed.

End seed_loader_further.

Section construction_further.

Import GenerateInstructionMapper.
Context `{External}.

Lemma join_lines (parts : list pystr) :
  parts ≠ [] ->
  join [10%N] parts ++ [10%N] = concat (List.map (fun p => p ++ [10%N]) parts).
Proof.
  induction parts as [|p parts IH]; [done|]. intros _.
  destruct parts as [|p' parts]; [simpl; by rewrite app_nil_r|].
  change (join [10%N] (p :: p' :: parts))
    with (p ++ [10%N] ++ join [10%N] (p' :: parts)).
  rewrite <- !app_assoc, IH by done.
  change (concat (List.map (fun p => p ++ [10%N]) (p :: p' :: parts)))
    with ((p ++ [10%N]) ++ concat (List.map (fun p => p ++ [10%N]) (p' :: parts))).
  by rewrite <- app_assoc.
Qed.

Lemma join_values_pair (qa : json * json) :
  join_values [10%N] [fst qa; snd qa] =
  match qa with
  | (JStr q, JStr a) => Ok (q ++ [10%N] ++ a)
  | _ => Err TypeError
  end.
Proof. destruct qa as [[] []]; reflexivity. Qed.

Lemma reference_parts_Ok (pairs : list (json * json)) (parts : list pystr) :
  mapM (fun qa => join_values [10%N] [fst qa; snd qa]) pairs = Ok parts ->
  exists strs, pairs = List.map str_pair strs /\
               parts = List.map (fun qa => fst qa ++ [10%N] ++ snd qa) strs.
Proof.
  revert parts. induction pairs as [|qa pairs IH]; intros parts; simpl.
  { intros [= <-]. by exists []. }
  intros Hrun. apply bind_Ok in Hrun as (part & Hpart & Hrun).
  apply bind_Ok in Hrun as (rest & Hrest & [= <-]).
  destruct (IH _ Hrest) as (strs & -> & ->).
  rewrite join_values_pair in Hpart.
  destruct qa as [[| | | |q| |] [| | | |a| |]]; try discriminate.
  injection Hpart as <-. by exists ((q, a) :: strs).
Qed.

Lemma reference_sample_Ok (pairs : list (json * json)) (ref : pystr) :
  reference_sample pairs = Ok ref -> pairs ≠ [] ->
  exists strs, strs ≠ [] /\ pairs = List.map str_pair strs /\ ref = pairs_text strs.
Proof.
  unfold reference_sample. intros Hrun Hne.
  apply bind_Ok in Hrun as (parts & Hparts & [= <-]).
  apply reference_parts_Ok in Hparts as (strs & -> & ->).
  exists strs. split; [by destruct strs|]. split; [reflexivity|].
  rewrite join_lines by (by destruct strs). unfold pairs_text.
  rewrite List.map_map. f_equal. apply List.map_ext. intros [q a]. simpl.
  by rewrite <- !app_assoc.
Qed.

Lemma reference_sample_not_str (pairs : list (json * json)) :
  Exists (fun qa => both_str qa = false) pairs ->
  reference_sample pairs = Err TypeError.
Proof.
  intros Hex. unfold reference_sample.
  assert (Hparts : mapM (fun qa => join_values [10%N] [fst qa; snd qa]) pairs
                   = Err TypeError).
  { induction Hex as [qa pairs Hqa | qa pairs _ IH]; simpl;
      rewrite join_values_pair.
    - by destruct qa as [[] []].
    - destruct qa as [[] []]; try reflexivity. simpl. by rewrite IH. }
  by rewrite Hparts.
Qed.

Lemma references_Ok (samples : list (list (json * json))) (refs : list pystr) :
  mapM reference_sample samples = Ok refs ->
  Forall (fun pairs => pairs ≠ []) samples ->
  Forall2 (fun pairs ref =>
             exists strs, strs ≠ [] /\ pairs = List.map str_pair strs /\
                          ref = pairs_text strs)
          samples refs.
Proof.
  revert refs. induction samples as [|pairs samples IH]; intros refs; simpl.
  { intros [= <-] _. constructor. }
  intros Hrun Hne. apply Forall_cons in Hne as [Hne1 Hne].
  apply bind_Ok in Hrun as (ref & Href & Hrun).
  apply bind_Ok in Hrun as (rest & Hrest & [= <-]).
  constructor; [by apply reference_sample_Ok | by apply IH].
Qed.

(** What a successful construction has done. *)
Lemma init_Ok (args : InitArgs) (self : t) :
  init args = Ok self ->
  exists seed_file key refs,
    arg_seed_file args = Some seed_file /\ seed_file ≠ [] /\
    prepare_model args = Ok key /\
    load_seed_qa_samples seed_file = Ok (seed_qa_samples self) /\
    seed_qa_samples self ≠ [] /\
    mapM reference_sample (seed_qa_samples self) = Ok refs /\
    self = {| text_key := arg_text_key args;
              instruct_num := arg_instruct_num args;
              similarity_threshold := arg_similarity_threshold args;
              similarity_type := "rouge_l";
              qa_extraction_pattern :=
                default QA_EXTRACTION_PATTERN (arg_qa_extraction_pattern args);
              model_key := key;
              seed_qa_samples := seed_qa_samples self;
              reference_samples := refs |}.
Proof.
  unfold init. destruct (arg_seed_file args) as [[|c seed_file]|]; try discriminate.
  intros Hinit. apply bind_Ok in Hinit as (key & Hkey & Hinit).
  apply bind_Ok in Hinit as (samples & Hload & Hinit).
  destruct (decide (length samples = 0%nat)) as [|Hlen]; [discriminate|].
  apply bind_Ok in Hinit as (refs & Hrefs & [= <-]). simpl.
  exists (c :: seed_file), key, refs. repeat split; try done.
  intros ->. by apply Hlen.
Qed.

Lemma loaded_nonempty (seed_file : pystr) (samples : list (list (json * json))) :
  load_seed_qa_samples seed_file = Ok samples ->
  Forall (fun pairs => pairs ≠ []) samples.
Proof.
  unfold load_seed_qa_samples. intros Hload.
  apply bind_Ok in Hload as (content & _ & Hload).
  apply load_lines_inv in Hload as (parsed & _ & ->). simpl.
  apply Forall_forall. intros p Hp. apply list_elem_of_filter in Hp as [Hp _].
  intros ->. simpl in Hp. lia.
Qed.

Lemma init_references (args : InitArgs) (self : t) :
  init args = Ok self ->
  Forall2 (fun pairs ref =>
             exists strs, strs ≠ [] /\ pairs = List.map str_pair strs /\
                          ref = pairs_text strs)
          (seed_qa_samples self) (reference_samples self).
Proof.
  intros Hinit.
  destruct (init_Ok args self Hinit)
    as (seed_file & key & refs & _ & _ & _ & Hload & _ & Hrefs & Hself).
  rewrite Hself at 2. simpl.
  apply references_Ok; [exact Hrefs | by eapply loaded_nonempty].
Qed.

(** X16.  A constructed mapper takes its text key, sample count and
    threshold from the arguments and its pattern from the argument or the
    default; its similarity type is rouge_l; its corpus is what the loader
    returns for the seed file; all its seed pairs are pairs of strings, and
    it has one reference sample per seed record, which is the text of the
    record's questions and answers, each followed by a line feed. *)
Theorem init_result (args : InitArgs) (self : t) :
  init args = Ok self ->
  text_key self = arg_text_key args /\
  instruct_num self = arg_instruct_num args /\
  similarity_threshold self = arg_similarity_threshold args /\
  similarity_type self = "rouge_l" /\
  qa_extraction_pattern self =
    default QA_EXTRACTION_PATTERN (arg_qa_extraction_pattern args) /\
  (exists seed_file,
     arg_seed_file args = Some seed_file /\
     load_seed_qa_samples seed_file = Ok (seed_qa_samples self)) /\
  Forall2 (fun pairs ref =>
             exists strs, strs ≠ [] /\ pairs = List.map str_pair strs /\
                          ref = pairs_text strs)
          (seed_qa_samples self) (reference_samples self).
Proof.
  intros Hinit. pose proof (init_references args self Hinit) as Hrefs.
  destruct (init_Ok args self Hinit)
    as (seed_file & key & refs & Hfile & _ & _ & Hload & _ & _ & Hself).
  rewrite Hself. simpl. repeat split; try done.
  - exists seed_file. split; [exact Hfile|]. by rewrite Hself in Hload.
  - by rewrite Hself in Hrefs.
Qed.

(** X17.  A seed corpus with a pair that is not a pair of strings, such as
    the pair without question of a record that starts with an assistant
    message, makes the construction raise [TypeError]. *)
Theorem init_non_string_pair (args : InitArgs) (seed_file : pystr)
    (samples : list (list (json * json))) :
  arg_seed_file args = Some seed_file -> seed_file ≠ [] ->
  is_Ok (prepare_model args) ->
  load_seed_qa_samples seed_file = Ok samples ->
  Exists (Exists (fun qa => both_str qa = false)) samples ->
  init args = Err TypeError.
Proof.
  intros Hfile Hne [key Hkey] Hload Hex. unfold init. rewrite Hfile.
  destruct seed_file as [|c seed_file]; [done|]. rewrite Hkey, Hload. simpl.
  destruct (decide (length samples = 0%nat)) as [Hlen|_].
  { apply length_zero_iff_nil in Hlen as ->. by apply Exists_nil in Hex. }
  assert (Hrefs : mapM reference_sample samples = Err TypeError).
  { pose proof (loaded_nonempty _ _ Hload) as Hnonempty. clear Hload.
    induction Hex as [pairs samples Hpairs | pairs samples _ IH]; simpl.
    - by rewrite (reference_sample_not_str pairs Hpairs).
    - apply Forall_cons in Hnonempty as [_ Hnonempty].
      destruct (reference_sample pairs) as [ref|e] eqn:Href; simpl.
      + by rewrite IH.
      + unfold reference_sample in Href.
        destruct (mapM _ pairs) as [parts|e'] eqn:Hparts; [discriminate|].
        injection Href as <-. clear -Hparts.
        induction pairs as [|qa pairs IHp]; [discriminate|]. simpl in Hparts.
        rewrite join_values_pair in Hparts.
        destruct qa as [[] []]; simpl in Hparts; try congruence.
        destruct (mapM _ pairs) as [parts|e''] eqn:Hrest; [discriminate|].
        injection Hparts as ->. by rewrite (IHp eq_refl). }
  by rewrite Hrefs.
Qed.

End construction_further.

(** ** Stripping *)

Lemma lstrip_idempotent (s : pystr) : lstrip (lstrip s) = lstrip s.
Proof.
  induction s as [|c s IH]; simpl; [reflexivity|].
  destruct (is_space c) eqn:Hc; [exact IH|]. simpl. by rewrite Hc.
Qed.

Lemma lstrip_suffix (s : pystr) : exists spaces, s = spaces ++ lstrip s.
Proof.
  induction s as [|c s [spaces IH]]; simpl; [by exists []|].
  destruct (is_space c); [|by exists []].
  exists (c :: spaces). simpl. by rewrite <- IH.
Qed.

Lemma lstrip_fixed (s : pystr) :
  lstrip s = s <-> match s with [] => True | c :: _ => is_space c = false end.
Proof.
  destruct s as [|c s]; simpl; [done|].
  destruct (is_space c) eqn:Hc; [|done]. split; [|done].
  intros Heq. destruct (lstrip_suffix s) as [spaces Hs].
  assert (Hlen : length s = (length spaces + length (lstrip s))%nat)
    by (rewrite Hs at 1; apply length_app).
  rewrite Heq in Hlen. simpl in Hlen. lia.
Qed.

Lemma lstrip_rstrip (s : pystr) : lstrip s = s -> lstrip (rstrip s) = rstrip s.
Proof.
  intros Hs. apply lstrip_fixed. apply lstrip_fixed in Hs.
  unfold rstrip. destruct (lstrip_suffix (rev s)) as [spaces Hrev].
  assert (Hprefix : s = rev (lstrip (rev s)) ++ rev spaces).
  { rewrite <- rev_app_distr, <- Hrev. by rewrite rev_involutive. }
  destruct (rev (lstrip (rev s))) as [|c r]; [done|].
  rewrite Hprefix in Hs. exact Hs.
Qed.

Lemma rstrip_idempotent (s : pystr) : rstrip (rstrip s) = rstrip s.
Proof. unfold rstrip. by rewrite rev_involutive, lstrip_idempotent. Qed.

Lemma strip_idempotent (s : pystr) : strip (strip s) = strip s.
Proof.
  unfold strip. rewrite (lstrip_rstrip (lstrip s) (lstrip_idempotent s)).
  apply rstrip_idempotent.
Qed.

Section parse_response_further.

Import GenerateInstructionMapper.
Context `{External}.

(** X18.  When [parse_response] returns, the pattern was matched without an
    error and every match unpacked into a question and an answer; it
    returns one pair per match, in order, each question and answer stripped
    (stripping them again changes nothing), together with the comparison
    text: every question and answer followed by a line feed.  The text is
    empty exactly when there is no pair. *)
Theorem parse_response_pairs (self : t) (response : pystr)
    (pairs : list (pystr * pystr)) (text : pystr) :
  parse_response self response = Ok (pairs, text) ->
  (exists matches groups,
     re_findall (qa_extraction_pattern self) response = Ok matches /\
     Forall2 (fun m qa => unpack_pair m = Ok qa) matches groups /\
     pairs = List.map strip_pair groups) /\
  Forall (fun qa => strip (fst qa) = fst qa /\ strip (snd qa) = snd qa) pairs /\
  text = pairs_text pairs /\
  (text = [] <-> pairs = []).
Proof.
  intros Hrun.
  apply parse_response_Ok in Hrun as (matches & groups & Hm & Hg & -> & ->).
  split; [|split; [|split; [reflexivity|]]].
  - exists matches, groups. split; [exact Hm|].
    split; [by apply mapM_Ok_Forall2 | reflexivity].
  - apply Forall_forall. intros qa Hqa. apply list_elem_of_In in Hqa.
    apply List.in_map_iff in Hqa as ([q a] & <- & _). simpl.
    split; apply strip_idempotent.
  - destruct (List.map strip_pair _) as [|[q a] pairs']; [done|].
    unfold pairs_text. simpl.
    split; [|discriminate]. rewrite <- app_assoc. intros Hnil.
    apply app_eq_nil in Hnil as [_ Hnil]. discriminate.
Qed.

(** X19.  A response whose pairs are those of a seed record is compared as
    the very text of that record's reference sample. *)
Theorem verbatim_copy_is_reference (args : InitArgs) (self : t) (k : nat)
    (response text : pystr) (pairs : list (pystr * pystr)) :
  init args = Ok self ->
  seed_qa_samples self !! k = Some (List.map str_pair pairs) ->
  parse_response self response = Ok (pairs, text) ->
  reference_samples self !! k = Some text.
Proof.
  intros Hinit Hk Hparse.
  destruct (Forall2_lookup_l _ _ _ _ _ (init_references args self Hinit) Hk)
    as (ref & Href & strs & _ & Hpairs & ->).
  rewrite Href. f_equal.
  assert (strs = pairs) as ->.
  { clear -Hpairs. revert strs Hpairs.
    induction pairs as [|[q a] pairs IH]; intros [|[q' a'] strs] Heq;
      try discriminate; [reflexivity|].
    injection Heq as -> -> Heq. f_equal. by apply IH. }
  by apply parse_response_Ok in Hparse as (_ & _ & _ & _ & _ & ->).
Qed.

End parse_response_further.

(** ** The order of floats *)

Lemma SFltb_key (x y : float) :
  is_nan x = false -> is_nan y = false ->
  (SFltb x y = true <-> key_lt (float_key x) (float_key y)).
Proof.
  unfold SFltb, key_lt.
  destruct x as [sx|sx| |sx mx ex], y as [sy|sy| |sy my ey]; intros Hx Hy;
    try discriminate; simpl;
    try (destruct sx; simpl; split; intros; try done; lia);
    try (destruct sy; simpl; split; intros; try done; lia);
    try (destruct sx, sy; simpl; split; intros; try done; lia).
  change (Pos.compare_cont Eq mx my) with (Pos.compare mx my).
  destruct sx, sy; simpl;
    destruct (Z.compare_spec ex ey); destruct (Pos.compare_spec mx my); simpl;
    split; intros; try done; try lia.
Qed.

Lemma SFleb_key (x y : float) :
  is_nan x = false -> is_nan y = false ->
  (SFleb x y = true <-> key_le (float_key x) (float_key y)).
Proof.
  unfold SFleb, key_le.
  destruct x as [sx|sx| |sx mx ex], y as [sy|sy| |sy my ey]; intros Hx Hy;
    try discriminate; simpl;
    try (destruct sx; simpl; split; intros; try done; lia);
    try (destruct sy; simpl; split; intros; try done; lia);
    try (destruct sx, sy; simpl; split; intros; try done; lia).
  change (Pos.compare_cont Eq mx my) with (Pos.compare mx my).
  destruct sx, sy; simpl;
    destruct (Z.compare_spec ex ey); destruct (Pos.compare_spec mx my); simpl;
    split; intros; try done; try lia.
Qed.

Lemma SFltb_not_nan (x y : float) :
  SFltb x y = true -> is_nan x = false /\ is_nan y = false.
Proof. by destruct x, y. Qed.

Lemma SFleb_not_nan (x y : float) :
  SFleb x y = true -> is_nan x = false /\ is_nan y = false.
Proof. by destruct x, y. Qed.

Lemma SFleb_refl (x : float) : is_nan x = false -> SFleb x x = true.
Proof. intros Hx. apply SFleb_key; try done. unfold key_le. lia. Qed.

Lemma SFleb_trans (x y z : float) :
  SFleb x y = true -> SFleb y z = true -> SFleb x z = true.
Proof.
  intros Hxy Hyz.
  destruct (SFleb_not_nan _ _ Hxy) as [Hx Hy].
  destruct (SFleb_not_nan _ _ Hyz) as [_ Hz].
  apply SFleb_key in Hxy; try done. apply SFleb_key in Hyz; try done.
  apply SFleb_key; try done. unfold key_le in *. lia.
Qed.

Lemma SFltb_SFleb (x y : float) : SFltb x y = true -> SFleb x y = true.
Proof.
  intros Hxy. destruct (SFltb_not_nan _ _ Hxy) as [Hx Hy].
  apply SFltb_key in Hxy; try done. apply SFleb_key; try done.
  unfold key_lt, key_le in *. lia.
Qed.

Lemma not_SFltb_SFleb (x y : float) :
  is_nan x = false -> is_nan y = false ->
  SFltb x y = false -> SFleb y x = true.
Proof.
  intros Hx Hy Hxy. apply SFleb_key; try done.
  assert (Hnot : ~ key_lt (float_key x) (float_key y)).
  { intros Hlt. apply SFltb_key in Hlt; try done. congruence. }
  unfold key_lt, key_le in *. lia.
Qed.

Lemma SFltb_SFleb_trans (x y z : float) :
  SFltb x y = true -> SFleb y z = true -> SFltb x z = true.
Proof.
  intros Hxy Hyz.
  destruct (SFltb_not_nan _ _ Hxy) as [Hx Hy].
  destruct (SFleb_not_nan _ _ Hyz) as [_ Hz].
  apply SFltb_key in Hxy; try done. apply SFleb_key in Hyz; try done.
  apply SFltb_key; try done. unfold key_lt, key_le in *. lia.
Qed.

Section similarity_gate.

Import GenerateInstructionMapper.
Context `{External}.

(** The loop returns a number that is not below the starting value and not
    below any score, and that is the starting value or one of the scores. *)
Lemma max_score_loop_spec (reference : pystr) (candidates : list pystr)
    (scores : list float) (m0 : float) :
  mapM (fun candidate => rouge_l_f candidate reference) candidates = Ok scores ->
  is_nan m0 = false ->
  exists m,
    max_score_loop reference candidates m0 = Ok m /\
    SFleb m0 m = true /\
    (m = m0 \/ m ∈ scores) /\
    Forall (fun s => is_nan s = true \/ SFleb s m = true) scores.
Proof.
  revert scores m0. induction candidates as [|c candidates IH];
    intros scores m0; simpl.
  { intros [= <-] Hm0. exists m0. split; [reflexivity|].
    split; [by apply SFleb_refl|]. split; [by left | constructor]. }
  intros Hrun Hm0. apply bind_Ok in Hrun as (s & Hs & Hrun).
  apply bind_Ok in Hrun as (rest & Hrest & [= <-]). rewrite Hs. simpl.
  destruct (SFltb m0 s) eqn:Hlt.
  - destruct (SFltb_not_nan _ _ Hlt) as [_ Hsnan].
    destruct (IH rest s Hrest Hsnan) as (m & Hm & Hle & Hin & Hall).
    exists m. split; [exact Hm|].
    split; [eapply SFleb_trans; [by apply SFltb_SFleb|exact Hle]|].
    split.
    + right. destruct Hin as [-> | Hin]; [by left | by right].
    + constructor; [by right | exact Hall].
  - destruct (IH rest m0 Hrest Hm0) as (m & Hm & Hle & Hin & Hall).
    exists m. split; [exact Hm|]. split; [exact Hle|]. split.
    + destruct Hin as [-> | Hin]; [by left | right; by right].
    + constructor; [|exact Hall].
      destruct (is_nan s) eqn:Hsnan; [by left|]. right.
      eapply SFleb_trans; [|exact Hle]. by apply not_SFltb_SFleb.
Qed.

(** X20.  When every similarity call returns, [max_rouge_l_score] returns a
    number that is not a NaN, that is [0.0] or one of the scores, that is
    at least [0.0] and at least every score that is not a NaN. *)
Theorem max_rouge_l_score_is_maximum (reference : pystr)
    (candidates : list pystr) (scores : list float) :
  mapM (fun candidate => rouge_l_f candidate reference) candidates = Ok scores ->
  exists m,
    max_rouge_l_score reference candidates = Ok m /\
    is_nan m = false /\
    SFleb float_zero m = true /\
    (m = float_zero \/ m ∈ scores) /\
    Forall (fun s => is_nan s = true \/ SFleb s m = true) scores.
Proof.
  intros Hscores. unfold max_rouge_l_score.
  destruct (max_score_loop_spec reference candidates scores float_zero Hscores eq_refl)
    as (m & Hm & Hle & Hin & Hall).
  exists m. split; [exact Hm|]. split; [by apply (SFleb_not_nan _ _ Hle)|].
  by repeat split.
Qed.

(** With at least one parsed pair, [process] compares the number the loop
    returns with the threshold. *)
Lemma process_at_gate (self : t) (response text : pystr)
    (pairs : list (pystr * pystr)) (m : float) :
  infer self = Ok response ->
  similarity_type self = "rouge_l" ->
  parse_response self response = Ok (pairs, text) ->
  pairs ≠ [] ->
  max_score_loop text (reference_samples self) float_zero = Ok m ->
  process self =
  Ok (emitted self
        (if SFleb m (similarity_threshold self)
         then messages_of_pairs pairs else [])).
Proof.
  intros Hinfer Htype Hparse Hne Hm.
  pose proof (parse_response_nonempty _ _ _ _ Hparse Hne) as Htext.
  unfold process. rewrite Hinfer. simpl. rewrite Hparse. simpl.
  destruct text as [|c text]; [done|].
  destruct (decide (similarity_type self = "rouge_l")); [|done].
  unfold max_rouge_l_score. rewrite Hm. simpl.
  destruct (SFleb m (similarity_threshold self)); [|reflexivity].
  by rewrite append_messages_spec.
Qed.

(** C2.  When the response yields at least one pair, the similarity of the
    text of the pairs to every reference sample is computed, and the
    greatest of these similarities, which is not negative, is compared
    with the threshold: when it is at most the threshold, the sample holds
    the JSON text of the messages of the pairs, a user object with the
    question then an assistant object with the answer, in extraction
    order; when it exceeds the threshold, the sample holds the JSON text
    of an empty messages array. *)
Theorem process_emits_or_rejects (self : t) (response response_str : pystr)
    (out_qa_pairs : list (pystr * pystr)) (scores : list float)
    (max_similarity : float) :
  infer self = Ok response ->
  similarity_type self = "rouge_l" ->
  parse_response self response = Ok (out_qa_pairs, response_str) ->
  out_qa_pairs ≠ [] ->
  mapM (fun reference_sample => rouge_l_f reference_sample (pairs_text out_qa_pairs))
       (reference_samples self) = Ok scores ->
  is_maximum max_similarity scores ->
  SFleb float_zero max_similarity = true ->
  (SFleb max_similarity (similarity_threshold self) = true ->
   process self
   = Ok (expected_sample (text_key self) (expected_messages out_qa_pairs))) /\
  (SFltb (similarity_threshold self) max_similarity = true ->
   process self = Ok (expected_sample (text_key self) [])).
Proof.
  intros Hinfer Htype Hparse Hne Hscores [Hmax_in Hmax_all] Hmax_pos.
  assert (Htext : response_str = pairs_text out_qa_pairs)
    by (by apply parse_response_Ok in Hparse as (_ & _ & _ & _ & _ & ->)).
  rewrite <- Htext in Hscores.
  destruct (max_score_loop_spec response_str (reference_samples self) scores
              float_zero Hscores eq_refl) as (m & Hm & Hle & Hin & Hall).
  rewrite (process_at_gate _ _ _ _ _ Hinfer Htype Hparse Hne Hm).
  assert (Hm_max : SFleb m max_similarity = true).
  { destruct Hin as [-> | Hin]; [exact Hmax_pos|].
    destruct (proj1 (Forall_forall _ _) Hmax_all m Hin) as [Hnan | Hmm];
      [|exact Hmm].
    destruct (SFleb_not_nan _ _ Hle) as [_ Hmnan]. congruence. }
  assert (Hmax_m : SFleb max_similarity m = true).
  { destruct (proj1 (Forall_forall _ _) Hall max_similarity Hmax_in)
      as [Hnan | Hmm]; [|exact Hmm].
    destruct (SFleb_not_nan _ _ Hmax_pos) as [_ Hmnan]. congruence. }
  split.
  - intros Hbelow.
    by rewrite (SFleb_trans _ _ _ Hm_max Hbelow).
  - intros Habove.
    by rewrite (SFltb_not_SFleb _ _
                  (SFltb_SFleb_trans _ _ _ Habove Hmax_m)).
Qed.

(** X21.  The similarity gate: with at least one parsed pair and every
    similarity call returning, the pairs are emitted when the threshold is
    at least [0.0] and at least every score, and the empty list is emitted
    when the threshold is below [0.0] or below some score. *)
Theorem process_gate (self : t) (response text : pystr)
    (pairs : list (pystr * pystr)) (scores : list float) :
  infer self = Ok response ->
  similarity_type self = "rouge_l" ->
  parse_response self response = Ok (pairs, text) ->
  pairs ≠ [] ->
  mapM (fun candidate => rouge_l_f candidate text) (reference_samples self)
    = Ok scores ->
  (SFleb float_zero (similarity_threshold self) = true ->
   Forall (fun s => SFleb s (similarity_threshold self) = true) scores ->
   process self = Ok (emitted self (messages_of_pairs pairs))) /\
  (SFltb (similarity_threshold self) float_zero = true \/
   Exists (fun s => SFltb (similarity_threshold self) s = true) scores ->
   process self = Ok (emitted self [])).
Proof.
  intros Hinfer Htype Hparse Hne Hscores.
  destruct (max_score_loop_spec text (reference_samples self) scores float_zero
              Hscores eq_refl) as (m & Hm & Hle & Hin & Hall).
  rewrite (process_at_gate _ _ _ _ _ Hinfer Htype Hparse Hne Hm). split.
  - intros Hzero Hbelow.
    assert (Hmle : SFleb m (similarity_threshold self) = true).
    { destruct Hin as [-> | Hin]; [exact Hzero|].
      by apply (proj1 (Forall_forall _ _) Hbelow). }
    by rewrite Hmle.
  - intros Habove.
    assert (Hlt : SFltb (similarity_threshold self) m = true).
    { destruct Habove as [Hzero | Hex].
      - by apply (SFltb_SFleb_trans _ float_zero).
      - apply Exists_exists in Hex as (s & Hs & Hlt).
        apply (SFltb_SFleb_trans _ s); [exact Hlt|].
        destruct (proj1 (Forall_forall _ _) Hall s Hs) as [Hnan | Hsm]; [|exact Hsm].
        destruct (SFltb_not_nan _ _ Hlt) as [_ Hsnan]. congruence. }
    by rewrite (SFltb_not_SFleb _ _ Hlt).
Qed.


End similarity_gate.

Section similarity_gate_instances.

Import GenerateInstructionMapper Examples MoreExamples.

Lemma process_emits_or_rejects_witness :
  @GenerateInstructionMapper.process (Concrete.env [] response1) mapper1
  = Ok (@expected_sample (Concrete.env [] response1) "text"
          (expected_messages [(question2, answer2)])) /\
  @GenerateInstructionMapper.process (Concrete.env [] response_copy) mapper1
  = Ok (@expected_sample (Concrete.env [] response_copy) "text" []).
Proof.
  split.
  - destruct (@process_emits_or_rejects (Concrete.env [] response1) mapper1
                response1 (pairs_text [(question2, answer2)])
                [(question2, answer2)] [float_zero] float_zero)
      as [Hemit _].
    + reflexivity.
    + reflexivity.
    + vm_compute. reflexivity.
    + discriminate.
    + vm_compute. reflexivity.
    + unfold is_maximum. split; [constructor|].
      constructor; [right; reflexivity | constructor].
    + reflexivity.
    + apply Hemit. reflexivity.
  - destruct (@process_emits_or_rejects (Concrete.env [] response_copy) mapper1
                response_copy (pairs_text [(question1, answer1)])
                [(question1, answer1)] [Concrete.float_one] Concrete.float_one)
      as [_ Hreject].
    + reflexivity.
    + reflexivity.
    + vm_compute. reflexivity.
    + discriminate.
    + vm_compute. reflexivity.
    + unfold is_maximum. split; [constructor|].
      constructor; [right; reflexivity | constructor].
    + reflexivity.
    + apply Hreject. reflexivity.
Defined.

End similarity_gate_instances.

Section build_prompt_properties.

Import BuildPrompt.
Context `{Formatting}.




End build_prompt_properties.

(** * The further properties on sample inputs *)

Section further_instances.

Import AverageLineLengthFilter GenerateInstructionMapper Examples MoreExamples.

Lemma compute_stats_completes_witness :
  exists s',
    compute_stats defaults batch3 false = Ok s' /\
    text s' = text batch3 /\
    length (stats s') = 2%nat /\
    Forall (fun stat => is_Some (stat !! avg_line_length)) (stats s').
Proof.
  assert (Hrun : exists s', compute_stats defaults batch3 false = Ok s')
    by (eexists; vm_compute; reflexivity).
  destruct Hrun as [s' Hrun]. exists s'. split; [exact Hrun|].
  exact (compute_stats_completes defaults batch3 s' false Hrun).
Defined.

Lemma compute_stats_keeps_other_metrics_witness :
  exists s' stat',
    compute_stats defaults batch3 false = Ok s' /\
    stats s' !! 0%nat = Some stat' /\
    stat' !! "num_words" = Some f1.
Proof.
  assert (Hrun : exists s', compute_stats defaults batch3 false = Ok s')
    by (eexists; vm_compute; reflexivity).
  destruct Hrun as [s' Hrun].
  destruct (compute_stats_keeps_other_metrics defaults batch3 s' false 0
              {[ "num_words" := f1 ]} Hrun eq_refl) as (stat' & Hstat' & Hkeys).
  exists s', stat'. split; [exact Hrun|]. split; [exact Hstat'|].
  rewrite Hkeys; [reflexivity | discriminate].
Defined.

Lemma process_after_compute_stats_witness :
  exists s' bs,
    compute_stats defaults batch3 false = Ok s' /\
    AverageLineLengthFilter.process narrow (StatsList (stats s')) = Ok (BoolList bs) /\
    length bs = 2%nat.
Proof.
  apply (process_after_compute_stats defaults narrow batch3 false).
  split; [simpl; lia | discriminate].
Defined.

Lemma process_missing_metric_witness :
  AverageLineLengthFilter.process narrow (StatsList (stats batch3)) = Err KeyError.
Proof.
  apply (process_missing_metric narrow (stats batch3)).
  apply Exists_cons_hd. reflexivity.
Defined.

Lemma compute_stats_context_witness :
  exists s',
    compute_stats defaults batch1 true = Ok s' /\
    cached_lines true s' 0 = Some [str "abcd"; str "ef"].
Proof.
  assert (Hrun : exists s', compute_stats defaults batch1 true = Ok s')
    by (eexists; vm_compute; reflexivity).
  destruct Hrun as [s' Hrun]. exists s'. split; [exact Hrun|].
  destruct (compute_stats_context defaults batch1 s' true Hrun) as (_ & _ & Hnew).
  apply (Hnew eq_refl 0%nat ∅ (str "abcd" ++ [10%N] ++ str "ef")); reflexivity.
Defined.

Lemma compute_stats_without_context_column_witness :
  compute_stats defaults batch3 true = Err KeyError.
Proof.
  apply (compute_stats_without_context_column defaults batch3 eq_refl).
  apply Exists_cons_hd. reflexivity.
Defined.

Lemma compute_stats_short_text_column_witness :
  compute_stats defaults batch4 false = Err IndexError.
Proof.
  apply (compute_stats_short_text_column defaults batch4 0 {[ "num_words" := f1 ]}).
  - intros j stat' Hj. lia.
  - reflexivity.
  - reflexivity.
  - reflexivity.
Defined.

Lemma empty_text_is_dropped_witness :
  exists s' bs,
    compute_stats defaults batch3 false = Ok s' /\
    AverageLineLengthFilter.process defaults (StatsList (stats s')) = Ok (BoolList bs) /\
    bs !! 1%nat = Some false.
Proof.
  apply (empty_text_is_dropped defaults defaults batch3 false 1 ∅).
  - split; [simpl; lia | discriminate].
  - reflexivity.
  - reflexivity.
  - reflexivity.
  - left. reflexivity.
  - reflexivity.
Defined.

Lemma single_line_text_metric_witness :
  splitlines (str "ab") = [str "ab"] /\
  exists s',
    compute_stats defaults batch3 false = Ok s' /\
    stats s' !! 0%nat =
      Some (<[avg_line_length := true_quotient 2 1]> {[ "num_words" := f1 ]}).
Proof.
  apply (single_line_text_metric defaults batch3 false 0 (str "ab")
           {[ "num_words" := f1 ]}).
  - split; [simpl; lia | discriminate].
  - reflexivity.
  - reflexivity.
  - reflexivity.
  - left. reflexivity.
  - discriminate.
  - repeat constructor.
Defined.

Lemma stored_metric_is_nonnegative_witness :
  exists s' v,
    compute_stats defaults batch3 false = Ok s' /\
    stats s' !! 0%nat = Some (<[avg_line_length := v]> {[ "num_words" := f1 ]}) /\
    Zle_float 0 v.
Proof.
  apply (stored_metric_is_nonnegative defaults batch3 false 0 (str "ab")
           {[ "num_words" := f1 ]}).
  - split; [simpl; lia | discriminate].
  - reflexivity.
  - reflexivity.
  - reflexivity.
Defined.

Lemma parse_chatml_str_pair_count_witness :
  exists qa_pairs,
    @parse_chatml_str (Concrete.env [] []) record_system = Ok qa_pairs /\
    length qa_pairs = 1%nat.
Proof.
  assert (Hrun : exists qa_pairs,
            @parse_chatml_str (Concrete.env [] []) record_system = Ok qa_pairs)
    by (eexists; vm_compute; reflexivity).
  destruct Hrun as [qa_pairs Hrun]. exists qa_pairs. split; [exact Hrun|].
  exact (@parse_chatml_str_pair_count (Concrete.env [] []) record_system
           (system_message :: messages1) qa_pairs eq_refl Hrun).
Defined.

Lemma parse_chatml_str_ignores_other_roles_witness :
  @parse_chatml_str (Concrete.env [] []) record1
  = @parse_chatml_str (Concrete.env [] []) record_system.
Proof.
  apply (@parse_chatml_str_ignores_other_roles (Concrete.env [] [])
           record_system record1 (system_message :: messages1)).
  - reflexivity.
  - reflexivity.
  - repeat constructor; eexists; reflexivity.
Defined.

Lemma parse_chatml_str_malformed_witness :
  @parse_chatml_str (Concrete.env [] []) record_no_messages = Err KeyError.
Proof.
  apply (@parse_chatml_str_malformed (Concrete.env [] []) record_no_messages
           (JObj [(str "text", JInt 1)]) eq_refl)
    with (members := [(str "text", JInt 1)]); reflexivity.
Defined.

Lemma load_seed_first_failure_witness :
  @load_seed_qa_samples
    (Concrete.env (record1 ++ [10%N] ++ record_no_messages ++ [10%N]) [])
    (str "seed.jsonl")
  = Err KeyError.
Proof.
  apply (@load_seed_first_failure
           (Concrete.env (record1 ++ [10%N] ++ record_no_messages ++ [10%N]) [])
           (str "seed.jsonl")
           (record1 ++ [10%N] ++ record_no_messages ++ [10%N])
           [record1 ++ [10%N]] [] (record_no_messages ++ [10%N]) KeyError).
  - reflexivity.
  - vm_compute. reflexivity.
  - repeat constructor. eexists. vm_compute. reflexivity.
  - vm_compute. reflexivity.
Defined.

Lemma load_seed_concat_witness :
  @load_seed_qa_samples (env_files two_files []) (str "ab.jsonl")
  = Ok ([[(JStr question1, JStr answer1)]]
        ++ [[(JStr (str "Capital of France?"), JStr (str "Paris"))]]).
Proof.
  apply (@load_seed_concat (env_files two_files [])
           (str "a.jsonl") (str "b.jsonl") (str "ab.jsonl")
           (record1 ++ [10%N]) (record2 ++ [10%N])).
  - reflexivity.
  - reflexivity.
  - reflexivity.
  - right. by exists record1.
  - vm_compute. reflexivity.
  - vm_compute. reflexivity.
Defined.

Lemma init_result_witness :
  similarity_type mapper1 = "rouge_l" /\
  reference_samples mapper1 = [pairs_text [(question1, answer1)]].
Proof.
  destruct (@init_result (Concrete.env (record1 ++ [10%N]) []) Concrete.args mapper1)
    as (_ & _ & _ & Htype & _ & _ & Hrefs).
  - vm_compute. reflexivity.
  - split; [exact Htype | reflexivity].
Defined.

Lemma init_non_string_pair_witness :
  @init (Concrete.env (Concrete.assistant_first ++ [10%N]) []) Concrete.args
  = Err TypeError.
Proof.
  apply (@init_non_string_pair
           (Concrete.env (Concrete.assistant_first ++ [10%N]) []) Concrete.args
           (str "seed.jsonl") [[(JNull, JStr (str "4"))]]).
  - reflexivity.
  - discriminate.
  - eexists. reflexivity.
  - vm_compute. reflexivity.
  - repeat constructor.
Defined.

Lemma parse_response_pairs_witness :
  @parse_response (Concrete.env [] []) mapper1 response1
  = Ok ([(question2, answer2)], pairs_text [(question2, answer2)]).
Proof.
  destruct (@parse_response_pairs (Concrete.env [] []) mapper1 response1
              [(question2, answer2)] (pairs_text [(question2, answer2)]))
    as (_ & _ & Htext & _).
  - vm_compute. reflexivity.
  - vm_compute. reflexivity.
Defined.

Lemma verbatim_copy_is_reference_witness :
  reference_samples mapper1 !! 0%nat = Some (pairs_text [(question1, answer1)]).
Proof.
  apply (@verbatim_copy_is_reference (Concrete.env (record1 ++ [10%N]) [])
           Concrete.args mapper1 0 response_copy
           (pairs_text [(question1, answer1)]) [(question1, answer1)]).
  - vm_compute. reflexivity.
  - reflexivity.
  - vm_compute. reflexivity.
Defined.

Lemma max_rouge_l_score_is_maximum_witness :
  exists m,
    @max_rouge_l_score (Concrete.env [] []) (pairs_text [(question1, answer1)])
      (reference_samples mapper1) = Ok m /\
    SFleb Concrete.float_one m = true.
Proof.
  destruct (@max_rouge_l_score_is_maximum (Concrete.env [] [])
              (pairs_text [(question1, answer1)]) (reference_samples mapper1)
              [Concrete.float_one])
    as (m & Hm & _ & _ & _ & Hall).
  - vm_compute. reflexivity.
  - exists m. split; [exact Hm|].
    apply Forall_cons in Hall as [[Hnan | Hle] _]; [discriminate | exact Hle].
Defined.

Lemma process_gate_witness :
  @GenerateInstructionMapper.process (Concrete.env [] response_copy) mapper1
  = Ok (@emitted (Concrete.env [] response_copy) mapper1 []).
Proof.
  apply (@process_gate (Concrete.env [] response_copy) mapper1 response_copy
           (pairs_text [(question1, answer1)]) [(question1, answer1)]
           [Concrete.float_one]).
  - reflexivity.
  - reflexivity.
  - vm_compute. reflexivity.
  - discriminate.
  - vm_compute. reflexivity.
  - right. apply Exists_cons_hd. reflexivity.
Defined.


End further_instances.
